(** * IOKit.py: notification registration and device iterators

    A shallow embedding of [IOKit.py], the Python binding of the I/O Kit
    notification service, and the properties of its public operations.

    The module talks to three foreign libraries (the I/O Kit framework
    through [ctypes], CoreFoundation and the Objective-C bridge).  Their
    entry points are not Python code: they appear here as parameters of the
    sections, so every statement holds whatever the registry answers. *)

From Stdlib Require Import ZArith.
From stdpp Require Import gmap strings list.

Open Scope string_scope.
Open Scope list_scope.
Open Scope Z_scope.

(** ** Python values and outcomes *)

(** The values that reach the code of this module: attribute values of a
    receiver, the [py_object] boxes made by [ctypes], and what the
    Objective-C bridge hands back for a pointer. *)
Inductive PyVal : Type :=
| PyNone
| PyInt (n : Z)
| PyStr (s : string)
| PyFunction (name : string)
    (* a function or a bound method *)
| PyInstance (cls : string) (has_call nonzero : bool)
    (* an instance of a user class: does the class define [__call__],
       and what does its [__nonzero__] answer *)
| py_object (v : PyVal)
    (* [ctypes.py_object(v)] *)
| ObjCValue (ptr : Z).
    (* the bridged value of the Objective-C object at [ptr] *)

#[global] Instance PyVal_eq_dec : EqDecision PyVal.
Proof. solve_decision. Defined.

(** Truth value of an object, as tested by [if not attr]. *)
Definition truthy (v : PyVal) : bool :=
  match v with
  | PyNone => false
  | PyInt n => negb (n =? 0)
  | PyStr s => negb (String.eqb s "")
  | PyFunction _ => true
  | PyInstance _ _ nonzero => nonzero
  | py_object _ => true
  | ObjCValue _ => true
  end.

(** Whether [v(...)] is a call and not a [TypeError]. *)
Definition callable (v : PyVal) : bool :=
  match v with
  | PyFunction _ => true
  | PyInstance _ has_call _ => has_call
  | _ => false
  end.

Inductive PyExc : Type :=
| StopIteration
| TypeError
| AttributeError
| NameError (name : string)
| Exception (cls : string) (arg : PyVal).
    (* an instance [cls(arg)] of an exception class bound to a global *)

#[global] Instance PyExc_eq_dec : EqDecision PyExc.
Proof. solve_decision. Defined.

(** A Python call either returns a value or raises. *)
Inductive Result (A : Type) : Type :=
| Return (a : A)
| Raise (e : PyExc).

Arguments Return {A} a.
Arguments Raise {A} e.

#[global] Instance Result_eq_dec `{EqDecision A} : EqDecision (Result A).
Proof. solve_decision. Defined.

(** ** Module constants *)

Definition kUSBVendorID := "idVendor".
Definition kUSBProductID := "idProduct".

Definition kIOUSBDeviceClassName := "IOUSBDevice".
Definition kIOUSBInterfaceClassName := "IOUSBInterface".

Definition kIOPublishNotification := "IOServicePublish".
Definition kIOFirstPublishNotification := "IOServiceFirstPublish".
Definition kIOMatchedNotification := "IOServiceMatched".
Definition kIOFirstMatchNotification := "IOServiceFirstMatch".
Definition kIOTerminatedNotification := "IOServiceTerminate".

Definition kIOProviderClassKey := "IOProviderClass".

Definition kIOServicePlane := "IOService".
Definition kIOBSDNameKey := "BSD Name".
Definition kIOCalloutDeviceKey := "IOCalloutDevice".
Definition kIORegistryIterateRecursively : Z := 1.
Definition kIORegistryIterateParents : Z := 2.

(** [kCFAllocatorDefault] comes from CoreFoundation, where it is the null
    allocator reference. *)
Definition kCFAllocatorDefault : Z := 0.

(** ** Iterators over registry objects *)

(** [class IOIterator]: the only field is the iteration cursor. *)
Record IOIterator : Type := { _obj : Z }.

#[global] Instance IOIterator_eq_dec : EqDecision IOIterator.
Proof. solve_decision. Defined.

(** The generator object built by [_path_callback]: a generator expression
    over an [IOIterator].  A generator that has raised, or whose source has
    raised, is finished for good. *)
Record PathGenerator : Type := { source : IOIterator; finished : bool }.

#[global] Instance PathGenerator_eq_dec : EqDecision PathGenerator.
Proof. solve_decision. Defined.

Section Iteration.

(** State of the registry service, and its calls used by the iterators. *)
Variable W : Type.

(** [_iokit.IOIteratorNext]: the next object of a cursor, 0 when there is
    none. *)
Variable IOIteratorNext : W -> Z -> W * Z.

(** [_iokit.IORegistryEntrySearchCFProperty], a query on the registry:
    entry, plane, key, allocator and options to the address of the
    property, [None] for the null address. *)
Variable iokit_IORegistryEntrySearchCFProperty :
  Z -> string -> string -> Z -> Z -> option Z.

(** [objc_object(c_void_p = prop)] of the Objective-C bridge. *)
Variable objc_object : option Z -> Result PyVal.

(** [def IORegistryEntrySearchCFProperty(entry, plane, key, allocator,
    options)]: the last two arguments are not read. *)
Definition IORegistryEntrySearchCFProperty
    (entry : Z) (plane key : string) (allocator options : Z) : Result PyVal :=
  let prop :=
    iokit_IORegistryEntrySearchCFProperty entry plane key
      kCFAllocatorDefault kIORegistryIterateRecursively in
  objc_object prop.

(** [IOIterator.next] *)
Definition next (self : IOIterator) (w : W) : W * Result Z :=
  let '(w', service) := IOIteratorNext w (_obj self) in
  if service =? 0 then (w', Raise StopIteration) else (w', Return service).

(** The generator expression of [_path_callback]
    [(IORegistryEntrySearchCFProperty(service, kIOServicePlane,
      kIOCalloutDeviceKey) for service in IOIterator(iterator))]. *)
Definition path_generator (iterator : Z) : PathGenerator :=
  {| source := {| _obj := iterator |}; finished := false |}.

Definition finish (g : PathGenerator) : PathGenerator :=
  {| source := source g; finished := true |}.

(** One [next()] on the generator: pull a service from the source, look
    its path up, yield the result.  There is no [if] clause. *)
Definition generator_next (g : PathGenerator) (w : W)
  : W * PathGenerator * Result PyVal :=
  if finished g then (w, g, Raise StopIteration)
  else
    match next (source g) w with
    | (w', Raise e) => (w', finish g, Raise e)
    | (w', Return service) =>
        match IORegistryEntrySearchCFProperty service kIOServicePlane
                kIOCalloutDeviceKey kCFAllocatorDefault
                kIORegistryIterateRecursively with
        | Raise e => (w', finish g, Raise e)
        | Return path => (w', g, Return path)
        end
    end.

(** Outcomes of [n] successive calls. *)
Fixpoint registry_pulls (n : nat) (cursor : Z) (w : W) : list Z :=
  match n with
  | O => []
  | S n =>
      let '(w', service) := IOIteratorNext w cursor in
      service :: registry_pulls n cursor w'
  end.

Fixpoint next_calls (n : nat) (self : IOIterator) (w : W) : list (Result Z) :=
  match n with
  | O => []
  | S n => let '(w', r) := next self w in r :: next_calls n self w'
  end.

Fixpoint generator_calls (n : nat) (g : PathGenerator) (w : W)
  : list (Result PyVal) :=
  match n with
  | O => []
  | S n =>
      let '(w', g', r) := generator_next g w in
      r :: generator_calls n g' w'
  end.

(** The cursor holds exactly the handles [hs]: the registry hands them
    out in order and reports exhaustion ever after. *)
Definition enumerates (w : W) (cursor : Z) (hs : list Z) : Prop :=
  Forall (fun h => h <> 0) hs /\
  forall m, registry_pulls (length hs + m) cursor w = hs ++ replicate m 0.

(** The path lookup done for each service. *)
Definition path_of (service : Z) : Result PyVal :=
  IORegistryEntrySearchCFProperty service kIOServicePlane
    kIOCalloutDeviceKey kCFAllocatorDefault kIORegistryIterateRecursively.

End Iteration.

Arguments next {W} IOIteratorNext self w.
Arguments generator_next {W} IOIteratorNext _ objc_object g w.
Arguments registry_pulls {W} IOIteratorNext n cursor w.
Arguments next_calls {W} IOIteratorNext n self w.
Arguments generator_calls {W} IOIteratorNext _ objc_object n g w.
Arguments enumerates {W} IOIteratorNext w cursor hs.

(** How [next] reads an answer of the registry. *)
Definition sentinel (service : Z) : Result Z :=
  if service =? 0 then Raise StopIteration else Return service.

(** ** Notification ports *)

(** The two [NOTIFICATION] objects of the module: [_notification] wraps
    [_callback], [_path_notification] wraps [_path_callback]. *)
Inductive Notification : Type := _notification | _path_notification.

#[global] Instance Notification_eq_dec : EqDecision Notification.
Proof. solve_decision. Defined.

(** What a handler is called with. *)
Inductive HandlerArg : Type :=
| ArgIterator (i : IOIterator)
| ArgGenerator (g : PathGenerator).

#[global] Instance HandlerArg_eq_dec : EqDecision HandlerArg.
Proof. solve_decision. Defined.

(** What a registration does that can be seen from outside: a request to
    the registry, with the status and cursor it answered, and a call of a
    handler. *)
Inductive Event : Type :=
| Subscribe (obj : Z) (k : string) (matching_id : Z) (n : Notification)
    (wrap : PyVal) (ret it : Z)
| Call (context : PyVal) (arg : HandlerArg).

#[global] Instance Event_eq_dec : EqDecision Event.
Proof. solve_decision. Defined.

(** The receiver is an object whose attributes the code reads with
    [getattr] and writes with [setattr]; [writable] tells for which names
    the object lets an attribute be set (an object with [__slots__], or
    with a [__setattr__] of its own, refuses some or all); the trace
    records the events. *)
Record State : Type := {
  receiver : gmap string PyVal;
  writable : string -> bool;
  trace : list Event
}.

(** [class IONotificationPort]: [port_obj] is its field [_obj]. *)
Record IONotificationPort : Type := { port_obj : Z }.

(** A matching dictionary, with the address [pyobjc_id] gives for it. *)
Record CFDictionary : Type := {
  address : Z;
  entries : gmap string PyVal
}.

Definition pyobjc_id (d : CFDictionary) : Z := address d.

(** [getattr(receiver, v, None)] *)
Definition getattr (r : gmap string PyVal) (v : string) (default : PyVal) : PyVal :=
  match r !! v with
  | Some attr => attr
  | None => default
  end.

(** [setattr(receiver, name, value)]: the attributes after it, or the
    [AttributeError] of a receiver that does not take the name. *)
Definition setattr (r : gmap string PyVal) (writable : string -> bool)
    (name : string) (value : PyVal) : Result (gmap string PyVal) :=
  if writable name then Return (<[name := value]> r)
  else Raise AttributeError.

(** The tuple [map] of [addMatchingNotifications]: notification type,
    method name, callback. *)
Definition notification_map : list (string * string * Notification) :=
  [ (kIOPublishNotification,      "on_publish",            _notification);
    (kIOFirstPublishNotification, "on_first_publish",      _notification);
    (kIOMatchedNotification,      "on_match",              _notification);
    (kIOFirstMatchNotification,   "on_first_match",        _notification);
    (kIOTerminatedNotification,   "on_terminate",          _notification);
    (kIOPublishNotification,      "on_path_publish",       _path_notification);
    (kIOFirstPublishNotification, "on_path_first_publish", _path_notification);
    (kIOMatchedNotification,      "on_path_match",         _path_notification);
    (kIOFirstMatchNotification,   "on_path_first_match",   _path_notification);
    (kIOTerminatedNotification,   "on_path_terminate",     _path_notification) ].

(** Names bound in the module namespace by the statements of the file: its
    assignments, [def]s, [class]es and the names it imports one by one. *)
Definition module_names : list string :=
  [ "pyobjc_id"; "objc_object"; "_iokit";
    "kUSBVendorID"; "kUSBProductID";
    "kIOUSBDeviceClassName"; "kIOUSBInterfaceClassName";
    "kIOPublishNotification"; "kIOFirstPublishNotification";
    "kIOMatchedNotification"; "kIOFirstMatchNotification";
    "kIOTerminatedNotification";
    "kIOMasterPortDefault"; "kIOProviderClassKey";
    "kIOServicePlane"; "kIOBSDNameKey"; "kIOCalloutDeviceKey";
    "kIORegistryIterateRecursively"; "kIORegistryIterateParents";
    "NOTIFICATION"; "IOServiceMatching"; "raw_ptr";
    "IORegistryEntrySearchCFProperty"; "IOIterator";
    "_callback"; "_path_callback"; "_notification"; "_path_notification";
    "IONotificationPort" ].

Section Registration.

(** [_iokit.IOServiceAddMatchingNotification(obj, k, matching_id, n, wrap,
    byref(it))]: the status and the cursor the registry answers, which
    may depend on all that happened before. *)
Variable IOServiceAddMatchingNotification :
  list Event -> Z -> string -> Z -> Notification -> PyVal -> Z * Z.

(** What running a handler does to the attributes of the receiver. *)
Variable handler_body :
  PyVal -> HandlerArg -> gmap string PyVal -> gmap string PyVal.

(** The names that [from CoreFoundation import *] and
    [from ctypes import *] bind. *)
Variable wildcard : string -> bool.

(** Whether a global name is bound when the module runs.  (Python looks
    a global up in the module namespace and then among the builtins; no
    builtin is called [IOException].) *)
Definition is_global (name : string) : bool :=
  bool_decide (name ∈ module_names) || wildcard name.

(** What [raise IOException(ret)] raises: the name is looked up first. *)
Definition raise_IOException (ret : Z) : PyExc :=
  if is_global "IOException"
  then Exception "IOException" (PyInt ret)
  else NameError "IOException".

(** [context(arg)] *)
Definition call (context : PyVal) (arg : HandlerArg) (st : State)
  : State * Result unit :=
  if callable context
  then ({| receiver := handler_body context arg (receiver st);
           writable := writable st;
           trace := trace st ++ [Call context arg] |}, Return tt)
  else (st, Raise TypeError).

(** [def _callback(context, iterator)] *)
Definition _callback (context : PyVal) (iterator : Z) (st : State)
  : State * Result unit :=
  call context (ArgIterator {| _obj := iterator |}) st.

(** [def _path_callback(context, iterator)] *)
Definition _path_callback (context : PyVal) (iterator : Z) (st : State)
  : State * Result unit :=
  let generator := path_generator iterator in
  call context (ArgGenerator generator) st.

(** The object a [py_object] box stands for when it reaches a callback. *)
Definition unbox (wrap : PyVal) : PyVal :=
  match wrap with
  | py_object v => v
  | v => v
  end.

(** Calling a [NOTIFICATION] object [n(wrap, it)] goes through the
    foreign-function thunk of [ctypes]: the Python callback receives the
    boxed object, the call has no result ([restype] is [None]), and an
    exception that leaves the callback is printed and dropped. *)
Definition notify (n : Notification) (wrap : PyVal) (it : Z) (st : State)
  : State :=
  match n with
  | _notification => fst (_callback (unbox wrap) it st)
  | _path_notification => fst (_path_callback (unbox wrap) it st)
  end.

(** The body of the loop [for k, v, n in map] of
    [addMatchingNotifications], on the rest of the tuple. *)
Fixpoint register (obj matching_id : Z)
    (rest : list (string * string * Notification))
    (iterators : gmap string Z) (st : State)
  : State * Result (gmap string Z) :=
  match rest with
  | [] => (st, Return iterators)
  | (k, v, n) :: rest =>
      let attr := getattr (receiver st) v PyNone in
      if negb (truthy attr) then register obj matching_id rest iterators st
      else
        let wrap := py_object attr in
        match setattr (receiver st) (writable st) (k +:+ "_ctype") wrap with
        | Raise e => (st, Raise e)
        | Return r =>
            let '(ret, it) :=
              IOServiceAddMatchingNotification (trace st) obj k matching_id n
                wrap in
            let st := {| receiver := r;
                         writable := writable st;
                         trace := trace st ++
                                  [Subscribe obj k matching_id n wrap ret it] |} in
            if negb (ret =? 0) then (st, Raise (raise_IOException ret))
            else
              let st := notify n wrap it st in
              register obj matching_id rest (<[v := it]> iterators) st
        end
  end.

(** [IONotificationPort.addMatchingNotifications] *)
Definition addMatchingNotifications (self : IONotificationPort)
    (matching : CFDictionary) (st : State)
  : State * Result (gmap string Z) :=
  let obj := port_obj self in
  let matching_id := pyobjc_id matching in
  register obj matching_id notification_map ∅ st.

End Registration.

(** [def IOServiceMatching(name = kIOUSBDeviceClassName)]: the dictionary
    CoreFoundation creates, at the address [dct], with its one entry. *)
Definition IOServiceMatching (dct : Z) (name : string) : CFDictionary :=
  {| address := dct;
     entries := {[ kIOProviderClassKey := PyStr name ]} |}.

(** ** Reading a run of the registration *)

(** The method names of the tuple. *)
Definition handler_names : list string :=
  (fun e : string * string * Notification => e.1.2) <$> notification_map.

(** The entries of the tuple whose method the receiver [r] exposes, as the
    loop tests it. *)
Definition exposed (r : gmap string PyVal)
    (rest : list (string * string * Notification))
  : list (string * string * Notification) :=
  List.filter (fun e => truthy (getattr r e.1.2 PyNone)) rest.

(** What a handler receives for a cursor, by callback. *)
Definition argument (n : Notification) (it : Z) : HandlerArg :=
  match n with
  | _notification => ArgIterator {| _obj := it |}
  | _path_notification => ArgGenerator (path_generator it)
  end.

Definition is_subscribe (e : Event) : bool :=
  match e with
  | Subscribe _ _ _ _ _ _ _ => true
  | Call _ _ => false
  end.

(** The requests of a trace, and those for one notification type. *)
Definition requests (tr : list Event) : list Event :=
  List.filter is_subscribe tr.

(** The notification type and callback of each request of a trace. *)
Definition request_key (e : Event) : option (string * Notification) :=
  match e with
  | Subscribe _ k _ n _ _ _ => Some (k, n)
  | Call _ _ => None
  end.

Definition subscriptions (tr : list Event) : list (string * Notification) :=
  omap request_key tr.

(** The same pair for an entry of the tuple. *)
Definition entry_key (e : string * string * Notification)
  : string * Notification := (e.1.1, e.2).

(** The values a receiver holds in its attributes. *)
Definition kept_references (r : gmap string PyVal) : list PyVal :=
  (map_to_list r).*2.

(** The call a callback makes of the object it is given. *)
Definition handler_call (n : Notification) (attr : PyVal) (it : Z)
  : list Event :=
  if callable attr then [Call attr (argument n it)] else [].

(** The events of a registration over the exposed entries [es] of a
    receiver [r], from the mapping built so far to the result: each entry
    is a request followed by the call of its handler, until the tuple ends,
    a request is refused, or the receiver refuses the attribute for the
    box. *)
Inductive registered (wildcard : string -> bool) (obj matching_id : Z)
    (r : gmap string PyVal)
  : list (string * string * Notification) -> gmap string Z ->
    list Event -> Result (gmap string Z) -> Prop :=
| registered_done iterators :
    registered wildcard obj matching_id r [] iterators [] (Return iterators)
| registered_bound k v n es iterators it new res :
    registered wildcard obj matching_id r es (<[v := it]> iterators) new res ->
    registered wildcard obj matching_id r ((k, v, n) :: es) iterators
      (Subscribe obj k matching_id n (py_object (getattr r v PyNone)) 0 it
         :: handler_call n (getattr r v PyNone) it ++ new)
      res
| registered_refused k v n es iterators ret it :
    ret <> 0 ->
    registered wildcard obj matching_id r ((k, v, n) :: es) iterators
      [Subscribe obj k matching_id n (py_object (getattr r v PyNone)) ret it]
      (Raise (raise_IOException wildcard ret))
| registered_unwritable k v n es iterators :
    registered wildcard obj matching_id r ((k, v, n) :: es) iterators
      [] (Raise AttributeError).

(** The events of any registration, whatever the receiver does: a request
    that is accepted is followed by the call its callback makes, and a
    refused request ends the trace. *)
Inductive paired : list Event -> Prop :=
| paired_done : paired []
| paired_bound obj k matching_id n attr it new :
    paired new ->
    paired (Subscribe obj k matching_id n (py_object attr) 0 it
              :: handler_call n attr it ++ new)
| paired_refused obj k matching_id n attr ret it :
    ret <> 0 ->
    paired [Subscribe obj k matching_id n (py_object attr) ret it].

(** Two receivers that agree on the method names of the tuple. *)
Definition agree (r0 r : gmap string PyVal) : Prop :=
  forall v, v ∈ handler_names -> r !! v = r0 !! v.

(** Handlers that do not rebind the method names of the tuple. *)
Definition keeps_handlers
    (handler_body : PyVal -> HandlerArg -> gmap string PyVal -> gmap string PyVal)
  : Prop :=
  forall f arg r, agree r (handler_body f arg r).

(** A registry that accepts every request. *)
Definition accepts_all
    (IOServiceAddMatchingNotification :
       list Event -> Z -> string -> Z -> Notification -> PyVal -> Z * Z)
  : Prop :=
  forall tr obj k matching_id n wrap,
    (IOServiceAddMatchingNotification tr obj k matching_id n wrap).1 = 0.

(** ** Loops over the iterators *)

(** [IOIterator.__iter__] *)
Definition __iter__ (self : IOIterator) : IOIterator := self.

(** How a [for] statement ends on an exception of [next()]:
    [StopIteration] ends it normally, anything else leaves it. *)
Definition loop_end (e : PyExc) : Result unit :=
  if decide (e = StopIteration) then Return tt else Raise e.

Section Loops.

Variable W : Type.
Variable IOIteratorNext : W -> Z -> W * Z.
Variable search : Z -> string -> string -> Z -> Z -> option Z.
Variable objc_object : option Z -> Result PyVal.

(** The calls of [next()] a [for] statement makes on an iterator: the
    items its body sees and how it ends, [None] when [fuel] calls have not
    ended it. *)
Fixpoint services_loop (fuel : nat) (iterator : IOIterator) (w : W)
  : option (list Z * Result unit) :=
  match fuel with
  | O => None
  | S fuel =>
      match next IOIteratorNext iterator w with
      | (w', Raise e) => Some ([], loop_end e)
      | (w', Return service) =>
          match services_loop fuel iterator w' with
          | Some (seen, r) => Some (service :: seen, r)
          | None => None
          end
      end
  end.

(** [for service in self: ...] *)
Definition for_services (fuel : nat) (self : IOIterator) (w : W)
  : option (list Z * Result unit) :=
  services_loop fuel (__iter__ self) w.

(** [for path in paths: ...] on the generator a path handler receives. *)
Fixpoint for_paths (fuel : nat) (paths : PathGenerator) (w : W)
  : option (list PyVal * Result unit) :=
  match fuel with
  | O => None
  | S fuel =>
      match generator_next IOIteratorNext search objc_object paths w with
      | (w', paths', Raise e) => Some ([], loop_end e)
      | (w', paths', Return path) =>
          match for_paths fuel paths' w' with
          | Some (seen, r) => Some (path :: seen, r)
          | None => None
          end
      end
  end.

End Loops.

Arguments services_loop {W} IOIteratorNext fuel iterator w.
Arguments for_services {W} IOIteratorNext fuel self w.
Arguments for_paths {W} IOIteratorNext search objc_object fuel paths w.

(** ** More on reading a registration *)

(** An event that is not a refused request. *)
Definition accepted (e : Event) : Prop :=
  match e with
  | Subscribe _ _ _ _ _ ret _ => ret = 0
  | Call _ _ => True
  end.

(** The attribute names under which the loop stores its boxes. *)
Definition ctype_names : list string :=
  (fun e : string * string * Notification => e.1.1 +:+ "_ctype") <$>
    notification_map.

(** A receiver that takes the attributes holding the boxes. *)
Definition accepts_boxes (st : State) : Prop :=
  forall name, name ∈ ctype_names -> writable st name = true.

(** The outcomes of a sequence of calls up to the first that raises, that
    one included. *)
Fixpoint until_raise {A : Type} (outcomes : list (Result A))
  : list (Result A) :=
  match outcomes with
  | [] => []
  | Return a :: rest => Return a :: until_raise rest
  | Raise e :: _ => [Raise e]
  end.

(** Handlers that do not rebind the attributes holding the boxes. *)
Definition keeps_boxes
    (handler_body : PyVal -> HandlerArg -> gmap string PyVal -> gmap string PyVal)
  : Prop :=
  forall f arg r name, name ∈ ctype_names -> handler_body f arg r !! name = r !! name.

(** What a registration may do, event by event: a request is made on the
    given port and filter, for an entry of the tuple, with the box of an
    attribute that is true; a call is the call of something callable. *)
Definition well_targeted (obj matching_id : Z) (e : Event) : Prop :=
  match e with
  | Subscribe obj' k matching_id' n wrap _ _ =>
      obj' = obj /\ matching_id' = matching_id /\
      exists v attr,
        (k, v, n) ∈ notification_map /\ wrap = py_object attr /\
        truthy attr = true
  | Call f _ => callable f = true
  end.

(** ** A registry for examples *)

Module Example.

(** Cursors as the lists of objects left in them. *)
Definition IOIteratorNext (w : gmap Z (list Z)) (cursor : Z)
  : gmap Z (list Z) * Z :=
  match w !! cursor with
  | Some (service :: rest) => (<[cursor := rest]> w, service)
  | _ => (w, 0)
  end.

(** Object 2 is a serial device whose callout path is the string at
    address 1000; no other object has one. *)
Definition search (entry : Z) (plane key : string) (allocator options : Z)
  : option Z :=
  if bool_decide (entry = 2 /\ plane = kIOServicePlane /\
                  key = kIOCalloutDeviceKey)
  then Some 1000 else None.

(** The bridge: the value at an address; on the null address, which
    [ctypes] hands over as [None], it fails to read an attribute. *)
Definition objc_object (prop : option Z) : Result PyVal :=
  match prop with
  | Some ptr => Return (ObjCValue ptr)
  | None => Raise AttributeError
  end.

(** A registry that accepts every request and numbers its cursors. *)
Definition accept (tr : list Event) (obj : Z) (k : string) (matching_id : Z)
    (n : Notification) (wrap : PyVal) : Z * Z :=
  (0, 100 + Z.of_nat (length (requests tr))).

(** A registry that refuses its third request with [kIOReturnError]. *)
Definition refuse_third (tr : list Event) (obj : Z) (k : string)
    (matching_id : Z) (n : Notification) (wrap : PyVal) : Z * Z :=
  if bool_decide (length (requests tr) = 2%nat)
  then (-536870212, 0)
  else (0, 100 + Z.of_nat (length (requests tr))).

(** Handlers that leave the receiver alone. *)
Definition quiet (f : PyVal) (arg : HandlerArg) (r : gmap string PyVal)
  : gmap string PyVal := r.

(** The wildcard imports bind no [IOException]. *)
Definition no_IOException (name : string) : bool :=
  negb (String.eqb name "IOException").

Definition port : IONotificationPort := {| port_obj := 7 |}.

Definition matching : CFDictionary :=
  let dct := IOServiceMatching 9 kIOUSBDeviceClassName in
  {| address := address dct;
     entries := <[kUSBProductID := PyInt 62514]>
                  (<[kUSBVendorID := PyInt 1105]> (entries dct)) |}.

Definition fresh (r : gmap string PyVal) : State :=
  {| receiver := r; writable := fun _ => true; trace := [] |}.

(** The same for a receiver that takes no new attribute. *)
Definition frozen (r : gmap string PyVal) : State :=
  {| receiver := r; writable := fun _ => false; trace := [] |}.

(** A handler that binds [on_terminate] on its receiver when it runs. *)
Definition rebinding (f : PyVal) (arg : HandlerArg) (r : gmap string PyVal)
  : gmap string PyVal := <["on_terminate" := PyFunction "late"]> r.

(** A receiver with the one method [on_match], and one with the one
    method [on_publish]. *)
Definition match_receiver : gmap string PyVal :=
  {[ "on_match" := PyFunction "on_match" ]}.

Definition publish_receiver : gmap string PyVal :=
  {[ "on_publish" := PyFunction "on_publish" ]}.

(** The receiver of the sample in the documentation string. *)
Definition path_receiver : gmap string PyVal :=
  {[ "on_path_match" := PyFunction "on_path_match";
     "on_path_terminate" := PyFunction "on_path_terminate" ]}.

(** A receiver with both forms for one notification type. *)
Definition both_forms : gmap string PyVal :=
  {[ "on_match" := PyFunction "on_match";
     "on_path_match" := PyFunction "on_path_match" ]}.

(** A receiver whose [on_match] is the number 1, and whose
    [on_terminate] is an object that can be called and is false. *)
Definition odd_receiver : gmap string PyVal :=
  {[ "on_match" := PyInt 1;
     "on_terminate" := PyInstance "Quiet" true false ]}.

(** A receiver with the first four raw handlers. *)
Definition four_handlers : gmap string PyVal :=
  {[ "on_publish" := PyFunction "on_publish";
     "on_first_publish" := PyFunction "on_first_publish";
     "on_match" := PyFunction "on_match";
     "on_first_match" := PyFunction "on_first_match" ]}.

(** A registry that replays a script of answers, whatever the cursor: a
    cursor that is armed again after it was emptied answers 0 and then
    hands out objects again. *)
Definition replay (w : list Z) (cursor : Z) : list Z * Z :=
  match w with
  | answer :: rest => (rest, answer)
  | [] => ([], 0)
  end.

(** The registrations of these receivers. *)
Abbreviation path_run :=
  (addMatchingNotifications accept quiet no_IOException port matching
    (fresh path_receiver)).

Abbreviation both_run :=
  (addMatchingNotifications accept quiet no_IOException port matching
    (fresh both_forms)).

Abbreviation odd_run :=
  (addMatchingNotifications accept quiet no_IOException port matching
    (fresh odd_receiver)).

Abbreviation refused_run :=
  (addMatchingNotifications refuse_third quiet no_IOException port matching
    (fresh four_handlers)).

Abbreviation frozen_run :=
  (addMatchingNotifications accept quiet no_IOException port matching
    (frozen match_receiver)).

Abbreviation rebinding_run :=
  (addMatchingNotifications accept rebinding no_IOException port matching
    (fresh publish_receiver)).

End Example.

(** * Properties *)

(** ** Iterators *)

Section IterationFacts.

Context {W : Type}.
Variable IOIteratorNext : W -> Z -> W * Z.
Variable search : Z -> string -> string -> Z -> Z -> option Z.
Variable objc_object : option Z -> Result PyVal.

Lemma next_calls_pulls n self w :
  next_calls IOIteratorNext n self w =
  sentinel <$> registry_pulls IOIteratorNext n (_obj self) w.
Proof.
  revert w. induction n as [|n IH]; intros w; [reflexivity|].
  cbn [next_calls registry_pulls]. unfold next.
  destruct (IOIteratorNext w (_obj self)) as [w' service].
  rewrite fmap_cons, <- IH. unfold sentinel.
  destruct (service =? 0); reflexivity.
Qed.

Lemma sentinel_handles hs :
  Forall (fun h => h <> 0) hs -> sentinel <$> hs = Return <$> hs.
Proof.
  induction 1 as [|h hs Hh _ IH]; [reflexivity|].
  rewrite !fmap_cons, IH. unfold sentinel.
  destruct (Z.eqb_spec h 0); [contradiction|reflexivity].
Qed.

Lemma sentinel_exhausted m :
  sentinel <$> replicate m 0 = replicate m (Raise StopIteration).
Proof. induction m as [|m IH]; [reflexivity|]. cbn. by rewrite <- IH. Qed.

Lemma enumerates_cons w cursor h hs :
  enumerates IOIteratorNext w cursor (h :: hs) ->
  h <> 0 /\
  exists w', IOIteratorNext w cursor = (w', h) /\
             enumerates IOIteratorNext w' cursor hs.
Proof.
  intros [Hnz Hpull]. inversion Hnz as [|? ? Hh Hhs]; subst.
  split; [assumption|].
  destruct (IOIteratorNext w cursor) as [w' service] eqn:Hstep.
  exists w'. pose proof (Hpull O) as H0. cbn in H0. rewrite Hstep in H0.
  injection H0 as -> _. split; [reflexivity|]. split; [assumption|].
  intros m. specialize (Hpull m). cbn in Hpull. rewrite Hstep in Hpull.
  by injection Hpull.
Qed.

Lemma enumerates_nil w cursor :
  enumerates IOIteratorNext w cursor [] ->
  exists w', IOIteratorNext w cursor = (w', 0) /\
             enumerates IOIteratorNext w' cursor [].
Proof.
  intros [_ Hpull].
  destruct (IOIteratorNext w cursor) as [w' service] eqn:Hstep.
  exists w'. pose proof (Hpull 1%nat) as H1. cbn in H1. rewrite Hstep in H1.
  injection H1 as ->. split; [reflexivity|]. split; [constructor|].
  intros m. specialize (Hpull (S m)). cbn in Hpull. rewrite Hstep in Hpull.
  by injection Hpull.
Qed.

(** A finished generator stays finished and leaves the registry alone. *)
Lemma generator_calls_finished m g w :
  finished g = true ->
  generator_calls IOIteratorNext search objc_object m g w =
  replicate m (Raise StopIteration).
Proof.
  intros Hg. induction m as [|m IH]; [reflexivity|].
  cbn [generator_calls]. unfold generator_next. rewrite Hg.
  cbn. by rewrite IH.
Qed.

Lemma generator_calls_exhausted m cursor w :
  enumerates IOIteratorNext w cursor [] ->
  generator_calls IOIteratorNext search objc_object m
    (path_generator cursor) w =
  replicate m (Raise StopIteration).
Proof.
  intros Hw. destruct m as [|m]; [reflexivity|].
  destruct (enumerates_nil _ _ Hw) as (w' & Hstep & _).
  cbn [generator_calls]. unfold generator_next, next. cbn.
  rewrite Hstep. cbn. by rewrite generator_calls_finished.
Qed.

Lemma sentinel_zeros later :
  Forall (fun a => a = 0) later ->
  sentinel <$> later = replicate (length later) (Raise StopIteration).
Proof.
  induction 1 as [|a later -> _ IH]; [reflexivity|].
  rewrite fmap_cons, IH. reflexivity.
Qed.

(** C7, amended. For a cursor that hands out the N handles [hs] and then
    answers 0, the first N calls of [IOIterator.next] return the handles
    in order and the (N+1)-th raises [StopIteration].  The iterator keeps
    no record of that: each later call asks the cursor again, and raises
    [StopIteration] exactly when the cursor answers 0 again, returning
    the handle otherwise.  So the later calls are all the sentinel as long
    as the cursor keeps answering 0. *)
Theorem IOIterator_next_follows_cursor w cursor hs later :
  Forall (fun h => h <> 0) hs ->
  registry_pulls IOIteratorNext (length hs + S (length later)) cursor w =
    hs ++ 0 :: later ->
  next_calls IOIteratorNext (length hs + S (length later))
    {| _obj := cursor |} w =
    (Return <$> hs) ++ Raise StopIteration :: (sentinel <$> later) /\
  (Forall (fun a => a = 0) later ->
   next_calls IOIteratorNext (length hs + S (length later))
     {| _obj := cursor |} w =
     (Return <$> hs) ++ replicate (S (length later)) (Raise StopIteration)).
Proof.
  intros Hnz Hpull.
  assert (Hcalls :
    next_calls IOIteratorNext (length hs + S (length later))
      {| _obj := cursor |} w =
    (Return <$> hs) ++ Raise StopIteration :: (sentinel <$> later)).
  { rewrite next_calls_pulls. cbn [_obj].
    rewrite Hpull, fmap_app, fmap_cons. by rewrite sentinel_handles. }
  split; [exact Hcalls|].
  intros Hzero. rewrite Hcalls, (sentinel_zeros _ Hzero). reflexivity.
Qed.

(** C10. The wrapper never reads [allocator] and [options]: any two
    choices of them give the same result, which is the search with the
    default allocator and [kIORegistryIterateRecursively]. *)
Theorem IORegistryEntrySearchCFProperty_fixed_options
    entry plane key allocator options allocator' options' :
  IORegistryEntrySearchCFProperty search objc_object
    entry plane key allocator options =
  IORegistryEntrySearchCFProperty search objc_object
    entry plane key allocator' options' /\
  IORegistryEntrySearchCFProperty search objc_object
    entry plane key allocator options =
  objc_object
    (search entry plane key kCFAllocatorDefault kIORegistryIterateRecursively).
Proof. split; reflexivity. Qed.

Lemma generator_calls_all_return w cursor hs paths :
  enumerates IOIteratorNext w cursor hs ->
  path_of search objc_object <$> hs = Return <$> paths ->
  forall m,
    generator_calls IOIteratorNext search objc_object (length hs + m)
      (path_generator cursor) w =
    (Return <$> paths) ++ replicate m (Raise StopIteration).
Proof.
  revert w paths. induction hs as [|h hs IH]; intros w paths Hw Hpaths m.
  - destruct paths; [|discriminate]. cbn.
    by apply generator_calls_exhausted.
  - destruct paths as [|p paths]; [discriminate|].
    rewrite !fmap_cons in Hpaths. injection Hpaths as Hp Hrest.
    destruct (enumerates_cons _ _ _ _ Hw) as (Hh & w' & Hstep & Hw').
    cbn [length Nat.add generator_calls]. unfold generator_next, next.
    cbn [finished path_generator source _obj]. rewrite Hstep.
    destruct (Z.eqb_spec h 0) as [|_]; [contradiction|].
    unfold path_of in Hp. rewrite Hp.
    rewrite fmap_cons. cbn [app]. f_equal.
    by apply IH.
Qed.

Lemma generator_calls_until_raise w cursor hs n k :
  enumerates IOIteratorNext w cursor hs ->
  (n <= k)%nat ->
  generator_calls IOIteratorNext search objc_object n
    (path_generator cursor) w =
  take n (until_raise (path_of search objc_object <$> hs) ++
          replicate k (Raise StopIteration)).
Proof.
  revert w n k. induction hs as [|h hs IH]; intros w n k Hw Hnk.
  - cbn [fmap list_fmap until_raise app].
    rewrite take_replicate, Nat.min_l by exact Hnk.
    by apply generator_calls_exhausted.
  - destruct n as [|n]; [reflexivity|].
    destruct (enumerates_cons _ _ _ _ Hw) as (Hh & w' & Hstep & Hw').
    cbn [generator_calls]. unfold generator_next, next.
    cbn [finished path_generator source _obj]. rewrite Hstep.
    destruct (Z.eqb_spec h 0) as [|_]; [contradiction|].
    rewrite fmap_cons. cbn [until_raise]. unfold path_of at 1.
    destruct (IORegistryEntrySearchCFProperty search objc_object h
                kIOServicePlane kIOCalloutDeviceKey kCFAllocatorDefault
                kIORegistryIterateRecursively) as [path|e].
    + cbn [app take]. f_equal. fold (path_generator cursor).
      apply IH; [exact Hw'|lia].
    + cbn [app take]. f_equal.
      rewrite take_replicate, Nat.min_l by lia.
      by apply generator_calls_finished.
Qed.

(** C2, amended. The outcomes of the calls of [next()] on the path
    generator are the path lookups of the handles of the cursor, in the
    order of the cursor, one for each handle and none skipped, up to and
    including the first lookup that raises; every call after these raises
    [StopIteration].  So a handle whose lookup raises ends the iteration
    with that exception; and when the lookups of all the handles return
    [paths], the generator yields exactly [paths] and is exhausted from
    the call after the last handle on, which is when the underlying
    iterator is. *)
Theorem path_generator_yields_each_lookup w cursor hs :
  enumerates IOIteratorNext w cursor hs ->
  (forall n,
     generator_calls IOIteratorNext search objc_object n
       (path_generator cursor) w =
     take n (until_raise (path_of search objc_object <$> hs) ++
             replicate n (Raise StopIteration))) /\
  (forall paths,
     path_of search objc_object <$> hs = Return <$> paths ->
     forall m,
       generator_calls IOIteratorNext search objc_object (length hs + m)
         (path_generator cursor) w =
       (Return <$> paths) ++ replicate m (Raise StopIteration)).
Proof.
  intros Hw. split.
  - intros n. by apply generator_calls_until_raise.
  - intros paths Hpaths. by apply generator_calls_all_return.
Qed.

End IterationFacts.

(** The example registry hands out the list stored for a cursor. *)
Lemma Example_enumerates (w : gmap Z (list Z)) cursor hs :
  w !! cursor = Some hs ->
  Forall (fun h => h <> 0) hs ->
  enumerates Example.IOIteratorNext w cursor hs.
Proof.
  intros Hw Hnz. split; [assumption|]. clear Hnz.
  revert w Hw. induction hs as [|h hs IH]; intros w Hw m.
  - cbn [length Nat.add app]. revert w Hw.
    induction m as [|m IHm]; intros w Hw; [reflexivity|].
    cbn [registry_pulls replicate]. unfold Example.IOIteratorNext at 1.
    rewrite Hw. f_equal. by apply IHm.
  - cbn [length Nat.add registry_pulls app].
    unfold Example.IOIteratorNext at 1. rewrite Hw. f_equal.
    apply IH. apply lookup_insert_eq.
Qed.

Lemma IOIterator_next_follows_cursor_witness :
  next_calls Example.replay 4 {| _obj := 5 |} [11; 12; 0; 0] =
  [Return 11; Return 12; Raise StopIteration; Raise StopIteration].
Proof.
  apply (IOIterator_next_follows_cursor Example.replay
           [11; 12; 0; 0] 5 [11; 12] [0]).
  - repeat constructor; lia.
  - reflexivity.
  - repeat constructor.
Defined.

(** C7, as stated, fails.  The cursor hands out the handle 11, answers 0,
    and is then armed again with the handle 12, as the cursor of a
    notification is: the second call of [next()] raises [StopIteration]
    and the third returns a handle, so the iterator goes on after the
    sentinel. *)
Lemma IOIterator_goes_on_after_sentinel :
  next_calls Example.replay 3 {| _obj := 5 |} [11; 0; 12] =
  [Return 11; Raise StopIteration; Return 12].
Proof. reflexivity. Qed.

Lemma path_generator_yields_each_lookup_witness :
  enumerates Example.IOIteratorNext {[5 := [2; 1; 2]]} 5 [2; 1; 2] /\
  generator_calls Example.IOIteratorNext Example.search Example.objc_object 3
    (path_generator 5) {[5 := [2; 1; 2]]} =
  [Return (ObjCValue 1000); Raise AttributeError; Raise StopIteration].
Proof.
  assert (H : enumerates Example.IOIteratorNext
                {[5 := [2; 1; 2]]} 5 [2; 1; 2]).
  { apply Example_enumerates; [reflexivity|]. repeat constructor; lia. }
  split; [exact H|].
  exact (proj1 (path_generator_yields_each_lookup Example.IOIteratorNext
                  Example.search Example.objc_object _ 5 [2; 1; 2] H) 3%nat).
Defined.

(** C2, as stated, fails.  The cursor holds the handles 1 and 2; handle 1
    has no callout path and handle 2 has the path at address 1000.  The
    claim has the generator skip handle 1, yield the path of handle 2 and
    then be exhausted.  The generator of the code does not skip handle 1:
    with the example bridge it raises the [AttributeError] of the lookup
    there and is exhausted, so the path of handle 2 is never yielded; and
    whatever the bridge makes of a null address, its first two outcomes
    are not the path followed by exhaustion. *)
Lemma path_generator_skips_nothing :
  generator_calls Example.IOIteratorNext Example.search Example.objc_object 3
    (path_generator 5) {[5 := [1; 2]]} =
  [Raise AttributeError; Raise StopIteration; Raise StopIteration] /\
  ~ exists objc_object path,
      objc_object (Some 1000) = Return path /\
      generator_calls Example.IOIteratorNext Example.search objc_object 2
        (path_generator 5) {[5 := [1; 2]]} =
      [Return path; Raise StopIteration].
Proof.
  split; [vm_compute; reflexivity|].
  intros (objc & path & Hpath & Hcalls).
  assert (H1 : Example.IOIteratorNext {[5 := [1; 2]]} 5 =
               (<[5 := [2]]> {[5 := [1; 2]]}, 1)) by reflexivity.
  assert (H2 : Example.IOIteratorNext (<[5 := [2]]> {[5 := [1; 2]]}) 5 =
               (<[5 := []]> (<[5 := [2]]> {[5 := [1; 2]]}), 2)) by reflexivity.
  cbn [generator_calls] in Hcalls. unfold generator_next at 1 in Hcalls.
  unfold next in Hcalls. cbn [finished path_generator source _obj] in Hcalls.
  rewrite H1 in Hcalls. cbn [Z.eqb] in Hcalls.
  unfold IORegistryEntrySearchCFProperty in Hcalls.
  change (Example.search 1 kIOServicePlane kIOCalloutDeviceKey
            kCFAllocatorDefault kIORegistryIterateRecursively)
    with (@None Z) in Hcalls.
  destruct (objc None) as [v|e]; [|discriminate Hcalls].
  unfold generator_next, next in Hcalls.
  cbn [finished path_generator source _obj] in Hcalls.
  rewrite H2 in Hcalls. cbn [Z.eqb] in Hcalls.
  unfold IORegistryEntrySearchCFProperty in Hcalls.
  change (Example.search 2 kIOServicePlane kIOCalloutDeviceKey
            kCFAllocatorDefault kIORegistryIterateRecursively)
    with (Some 1000) in Hcalls.
  rewrite Hpath in Hcalls. discriminate Hcalls.
Qed.

(** ** Registration *)

(** No attribute written by the loop is one of the method names it reads. *)
Lemma ctype_names_fresh :
  Forall (fun e : string * string * Notification =>
            e.1.1 +:+ "_ctype" ∉ handler_names) notification_map.
Proof. apply (bool_decide_unpack _). vm_compute. exact I. Qed.

Lemma handler_names_NoDup : NoDup handler_names.
Proof. apply (bool_decide_unpack _). vm_compute. exact I. Qed.

Lemma entry_keys_NoDup : NoDup (entry_key <$> notification_map).
Proof. apply (bool_decide_unpack _). vm_compute. exact I. Qed.

Lemma agree_getattr r0 r v :
  agree r0 r -> v ∈ handler_names -> getattr r v PyNone = getattr r0 v PyNone.
Proof. intros Hr Hv. unfold getattr. by rewrite (Hr v Hv). Qed.

Lemma agree_setattr r0 r name value :
  agree r0 r -> name ∉ handler_names -> agree r0 (<[name := value]> r).
Proof.
  intros Hr Hname v Hv.
  rewrite lookup_insert_ne; [by apply Hr|]. intros ->. contradiction.
Qed.

Lemma exposed_cons r e rest :
  exposed r (e :: rest) =
  if truthy (getattr r e.1.2 PyNone) then e :: exposed r rest
  else exposed r rest.
Proof. reflexivity. Qed.

Lemma exposed_elem r rest e :
  e ∈ exposed r rest <-> e ∈ rest /\ truthy (getattr r e.1.2 PyNone) = true.
Proof.
  unfold exposed. rewrite !list_elem_of_In, filter_In. reflexivity.
Qed.

Lemma exposed_sublist r rest : exposed r rest `sublist_of` rest.
Proof.
  induction rest as [|e rest IH]; [constructor|].
  rewrite exposed_cons. destruct (truthy _); by constructor.
Qed.

Section RegistrationFacts.

Variable IOServiceAddMatchingNotification :
  list Event -> Z -> string -> Z -> Notification -> PyVal -> Z * Z.
Variable handler_body :
  PyVal -> HandlerArg -> gmap string PyVal -> gmap string PyVal.
Variable wildcard : string -> bool.

Abbreviation run_register :=
  (register IOServiceAddMatchingNotification handler_body wildcard).
Abbreviation run_notify := (notify handler_body).

(** The state after [n(wrap, it)]. *)
Lemma notify_receiver n attr it st :
  receiver (run_notify n (py_object attr) it st) =
  if callable attr
  then handler_body attr (argument n it) (receiver st)
  else receiver st.
Proof.
  destruct n; cbn; unfold _callback, _path_callback, call;
    destruct (callable attr); reflexivity.
Qed.

Lemma notify_trace n attr it st :
  trace (run_notify n (py_object attr) it st) =
  trace st ++ handler_call n attr it.
Proof.
  unfold handler_call.
  destruct n; cbn; unfold _callback, _path_callback, call;
    destruct (callable attr); cbn;
    by rewrite ?app_nil_r.
Qed.

Lemma notify_writable n attr it st :
  writable (run_notify n (py_object attr) it st) = writable st.
Proof.
  destruct n; cbn; unfold _callback, _path_callback, call;
    destruct (callable attr); reflexivity.
Qed.

(** A receiver that exposes nothing is left alone. *)
Lemma register_nothing_exposed obj matching_id rest iterators st :
  exposed (receiver st) rest = [] ->
  run_register obj matching_id rest iterators st = (st, Return iterators).
Proof.
  induction rest as [|[[k v] n] rest IH]; intros Hex; [reflexivity|].
  rewrite exposed_cons in Hex. cbn [fst snd] in Hex. cbn [register].
  destruct (truthy (getattr (receiver st) v PyNone)); [discriminate|].
  by apply IH.
Qed.

(** The loop refines [registered]: its events are those of a
    registration over the entries the receiver exposed at the start. *)
Lemma register_registered r0 obj matching_id rest iterators st st' res :
  keeps_handlers handler_body ->
  Forall (fun e => e.1.1 +:+ "_ctype" ∉ handler_names) rest ->
  Forall (fun e => e.1.2 ∈ handler_names) rest ->
  agree r0 (receiver st) ->
  run_register obj matching_id rest iterators st = (st', res) ->
  exists new,
    trace st' = trace st ++ new /\
    registered wildcard obj matching_id r0 (exposed r0 rest) iterators new res.
Proof.
  intros Hkeep. revert iterators st.
  induction rest as [|[[k v] n] rest IH];
    intros iterators st Hfresh Hnames Hagree Hrun.
  - injection Hrun as <- <-. exists []. rewrite app_nil_r.
    split; [reflexivity|constructor].
  - inversion Hfresh as [|? ? Hk Hfresh']; subst.
    inversion Hnames as [|? ? Hv Hnames']; subst. cbn [fst snd] in Hk, Hv.
    rewrite exposed_cons. cbn [fst snd]. cbn [register] in Hrun.
    rewrite (agree_getattr r0 _ v Hagree Hv) in Hrun.
    destruct (truthy (getattr r0 v PyNone)); cbn [negb] in Hrun.
    2: { by apply (IH iterators st). }
    unfold setattr in Hrun. destruct (writable st (k +:+ "_ctype")) eqn:Hw.
    2: { injection Hrun as <- <-. exists []. rewrite app_nil_r.
         split; [reflexivity|apply registered_unwritable]. }
    destruct (IOServiceAddMatchingNotification (trace st) obj k matching_id n
                (py_object (getattr r0 v PyNone))) as [ret it].
    destruct (Z.eqb_spec ret 0) as [->|Hret]; cbn [negb] in Hrun.
    + apply IH in Hrun as (new & Htrace & Hnew); [|assumption..|].
      * rewrite notify_trace in Htrace. cbn [trace] in Htrace.
        eexists. split; [|by apply registered_bound, Hnew].
        rewrite Htrace, <- !app_assoc. reflexivity.
      * rewrite notify_receiver. cbn [receiver].
        pose proof (agree_setattr r0 _ (k +:+ "_ctype")
                      (py_object (getattr r0 v PyNone)) Hagree Hk) as Hset.
        destruct (callable _); [|exact Hset].
        intros v' Hv'. rewrite <- (Hset v' Hv').
        exact (Hkeep _ _ _ v' Hv').
    + injection Hrun as <- <-. cbn [trace].
      eexists. split; [reflexivity|]. by apply registered_refused.
Qed.

End RegistrationFacts.

(** *** What the events of a registration look like *)

Lemma raise_IOException_unbound wildcard ret :
  wildcard "IOException" = false ->
  raise_IOException wildcard ret = NameError "IOException".
Proof.
  intros Hw. unfold raise_IOException, is_global. rewrite Hw.
  reflexivity.
Qed.

Lemma raise_IOException_bound wildcard ret :
  wildcard "IOException" = true ->
  raise_IOException wildcard ret = Exception "IOException" (PyInt ret).
Proof.
  intros Hw. unfold raise_IOException, is_global. rewrite Hw.
  by rewrite orb_true_r.
Qed.

Lemma subscriptions_handler_call n attr it new :
  subscriptions (handler_call n attr it ++ new) = subscriptions new.
Proof. unfold handler_call. destruct (callable attr); reflexivity. Qed.

Lemma requests_handler_call n attr it new :
  requests (handler_call n attr it ++ new) = requests new.
Proof. unfold handler_call. destruct (callable attr); reflexivity. Qed.

Lemma requests_length tr : length (requests tr) = length (subscriptions tr).
Proof.
  induction tr as [|e tr IH]; [reflexivity|].
  destruct e; cbn; [f_equal|]; exact IH.
Qed.

Lemma fmap_NoDup_inj {A B} (f : A -> B) (l : list A) x y :
  NoDup (f <$> l) -> x ∈ l -> y ∈ l -> f x = f y -> x = y.
Proof.
  induction l as [|a l IH]; intros Hnd Hx Hy Hf; [by inversion Hx|].
  rewrite fmap_cons in Hnd. apply NoDup_cons in Hnd as [Ha Hnd].
  apply elem_of_cons in Hx as [->|Hx]; apply elem_of_cons in Hy as [->|Hy].
  - reflexivity.
  - exfalso. apply Ha. rewrite Hf. by apply list_elem_of_fmap_2.
  - exfalso. apply Ha. rewrite <- Hf. by apply list_elem_of_fmap_2.
  - by apply IH.
Qed.

Section RegisteredFacts.

Variable wildcard : string -> bool.
Variables obj matching_id : Z.
Variable r : gmap string PyVal.

Abbreviation run := (registered wildcard obj matching_id r).

Lemma registered_subscriptions es iterators new res :
  run es iterators new res ->
  subscriptions new `prefix_of` (entry_key <$> es) /\
  (forall iterators', res = Return iterators' ->
     subscriptions new = entry_key <$> es).
Proof.
  induction 1 as [its|k v n es its it new res _ [IHp IHr]
                  |k v n es its ret it Hret|k v n es its].
  - split; [reflexivity|done].
  - rewrite fmap_cons.
    change (subscriptions (Subscribe obj k matching_id n
              (py_object (getattr r v PyNone)) 0 it ::
              handler_call n (getattr r v PyNone) it ++ new))
      with ((k, n) :: subscriptions (handler_call n (getattr r v PyNone) it ++ new)).
    rewrite subscriptions_handler_call. split.
    + by apply prefix_cons.
    + intros its' ->. by rewrite (IHr its').
  - split; [|done]. rewrite fmap_cons. apply prefix_cons, prefix_nil.
  - split; [apply prefix_nil|done].
Qed.

Lemma registered_lookup_other es iterators new iterators' v :
  run es iterators new (Return iterators') ->
  v ∉ (fun e : string * string * Notification => e.1.2) <$> es ->
  iterators' !! v = iterators !! v.
Proof.
  remember (Return iterators') as res eqn:Hres. intros Hrun. revert Hres.
  induction Hrun as [its|k v0 n es its it new res _ IH| |]; intros Hres Hv.
  - by injection Hres as ->.
  - rewrite fmap_cons in Hv. cbn [fst snd] in Hv.
    apply not_elem_of_cons in Hv as [Hne Hv].
    rewrite (IH Hres Hv). by apply lookup_insert_ne.
  - discriminate.
  - discriminate.
Qed.

Lemma registered_dom es iterators new iterators' :
  run es iterators new (Return iterators') ->
  dom iterators' =
  dom iterators ∪
  list_to_set ((fun e : string * string * Notification => e.1.2) <$> es).
Proof.
  remember (Return iterators') as res eqn:Hres. intros Hrun. revert Hres.
  induction Hrun as [its|k v n es its it new res _ IH| |]; intros Hres.
  - injection Hres as ->. cbn. by rewrite (right_id_L ∅ (∪)).
  - rewrite (IH Hres), dom_insert_L, fmap_cons. cbn [list_to_set fst snd].
    rewrite (comm_L (∪) {[v]} (dom its)). by rewrite (assoc_L (∪)).
  - discriminate.
  - discriminate.
Qed.

Lemma registered_cursor es iterators new iterators' k v n :
  run es iterators new (Return iterators') ->
  NoDup ((fun e : string * string * Notification => e.1.2) <$> es) ->
  (k, v, n) ∈ es ->
  exists it,
    Subscribe obj k matching_id n (py_object (getattr r v PyNone)) 0 it ∈ new /\
    iterators' !! v = Some it.
Proof.
  remember (Return iterators') as res eqn:Hres. intros Hrun. revert Hres.
  induction Hrun as [its|k0 v0 n0 es its it new res Hrun IH| |];
    intros Hres Hnd Hin.
  - by inversion Hin.
  - rewrite fmap_cons in Hnd. apply NoDup_cons in Hnd as [Hv0 Hnd].
    cbn [fst snd] in Hv0.
    apply elem_of_cons in Hin as [Heq|Hin].
    + injection Heq as -> -> ->. exists it. split; [by left|].
      subst res. rewrite (registered_lookup_other _ _ _ _ _ Hrun Hv0).
      apply lookup_insert_eq.
    + destruct (IH Hres Hnd Hin) as (it' & Hev & Hit).
      exists it'. split; [|exact Hit].
      right. apply elem_of_app. by right.
  - discriminate.
  - discriminate.
Qed.

End RegisteredFacts.

(** In a paired trace an accepted request is followed at once by the call
    of its handler, and every call follows its request. *)
Lemma paired_call_follows new :
  paired new ->
  forall pre post obj k matching_id n wrap it,
    new = pre ++ Subscribe obj k matching_id n wrap 0 it :: post ->
    callable (unbox wrap) = true ->
    exists post', post = Call (unbox wrap) (argument n it) :: post'.
Proof.
  induction 1 as [|obj0 k0 m0 n0 attr it0 new Hnew IH|obj0 k0 m0 n0 attr ret it0 Hret];
    intros pre post obj k m n wrap it Heq Hcall.
  - by destruct pre.
  - destruct pre as [|e pre]; cbn in Heq.
    + injection Heq as <- <- <- <- <- <- <-. cbn [unbox] in *.
      unfold handler_call. rewrite Hcall. by eexists.
    + injection Heq as _ Heq. unfold handler_call in Heq.
      destruct (callable attr); cbn in Heq; [|by eapply IH].
      destruct pre as [|e' pre]; cbn in Heq; [discriminate|].
      injection Heq as _ Heq. by eapply IH.
  - destruct pre as [|e pre]; cbn in Heq.
    + inversion Heq; subst. contradiction.
    + injection Heq as _ Heq. by destruct pre.
Qed.

Lemma paired_call_preceded new :
  paired new ->
  forall pre post f arg,
    new = pre ++ Call f arg :: post ->
    exists pre' obj k matching_id n wrap it,
      pre = pre' ++ [Subscribe obj k matching_id n wrap 0 it] /\
      f = unbox wrap /\ arg = argument n it.
Proof.
  induction 1 as [|obj0 k0 m0 n0 attr it0 new Hnew IH|obj0 k0 m0 n0 attr ret it0 Hret];
    intros pre post f arg Heq.
  - by destruct pre.
  - destruct pre as [|e pre]; cbn in Heq; [discriminate|].
    injection Heq as <- Heq. unfold handler_call in Heq.
    destruct (callable attr); cbn in Heq.
    + destruct pre as [|e' pre]; cbn in Heq.
      * injection Heq as <- <- _.
        by exists [], obj0, k0, m0, n0, (py_object attr), it0.
      * injection Heq as <- Heq.
        destruct (IH _ _ _ _ Heq) as (pre' & o & k & m & n & w & it & -> & ? & ?).
        eexists (_ :: _ :: pre'), o, k, m, n, w, it.
        split; [reflexivity|done].
    + destruct (IH _ _ _ _ Heq) as (pre' & o & k & m & n & w & it & -> & ? & ?).
      eexists (_ :: pre'), o, k, m, n, w, it.
      split; [reflexivity|done].
  - destruct pre as [|e pre]; cbn in Heq; [discriminate|].
    injection Heq as _ Heq. by destruct pre.
Qed.

(** *** The loop itself *)

Lemma entry_name_elem (e : string * string * Notification) :
  e ∈ notification_map -> e.1.2 ∈ handler_names.
Proof.
  intros He. unfold handler_names.
  by apply (list_elem_of_fmap_2 (fun e : string * string * Notification => e.1.2)).
Qed.

Lemma notification_map_names :
  Forall (fun e : string * string * Notification => e.1.2 ∈ handler_names)
    notification_map.
Proof. apply Forall_forall. exact entry_name_elem. Qed.

(** What a receiver exposes, as a set of names. *)
Lemma exposed_names (r : gmap string PyVal) (H : gset string) :
  (forall v, v ∈ H <->
     v ∈ handler_names /\ truthy (getattr r v PyNone) = true) ->
  let names :=
    (fun e : string * string * Notification => e.1.2) <$>
      exposed r notification_map in
  NoDup names /\ list_to_set names = H /\ length (exposed r notification_map) = size H.
Proof.
  intros HH names.
  assert (Hnd : NoDup names).
  { eapply sublist_NoDup; [exact handler_names_NoDup|].
    apply fmap_sublist, exposed_sublist. }
  assert (Hset : list_to_set names = H).
  { apply set_eq. intros v. rewrite elem_of_list_to_set, HH.
    unfold names. rewrite list_elem_of_fmap. split.
    - intros (e & -> & He). apply exposed_elem in He as [He Ht].
      split; [|exact Ht]. by apply entry_name_elem.
    - intros [Hv Ht]. unfold handler_names in Hv.
      apply list_elem_of_fmap in Hv as (e & -> & He).
      exists e. split; [reflexivity|]. by apply exposed_elem. }
  split; [exact Hnd|]. split; [exact Hset|].
  rewrite <- Hset, size_list_to_set by exact Hnd.
  unfold names. by rewrite length_fmap.
Qed.

Section RegistrationClaims.

Variable IOServiceAddMatchingNotification :
  list Event -> Z -> string -> Z -> Notification -> PyVal -> Z * Z.
Variable handler_body :
  PyVal -> HandlerArg -> gmap string PyVal -> gmap string PyVal.
Variable wildcard : string -> bool.

Abbreviation run_loop :=
  (register IOServiceAddMatchingNotification handler_body wildcard).
Abbreviation run_add :=
  (addMatchingNotifications IOServiceAddMatchingNotification handler_body
     wildcard).

(** With a registry that accepts every request and a receiver that takes
    the boxes, the loop returns. *)
Lemma register_returns obj matching_id rest iterators st :
  accepts_all IOServiceAddMatchingNotification ->
  Forall (fun e => writable st (e.1.1 +:+ "_ctype") = true) rest ->
  exists st' iterators',
    run_loop obj matching_id rest iterators st = (st', Return iterators').
Proof.
  intros Hok. revert iterators st.
  induction rest as [|[[k v] n] rest IH]; intros iterators st Hw.
  - by eexists _, _.
  - inversion Hw as [|? ? Hk Hw']; subst. cbn [fst snd] in Hk.
    cbn [register].
    destruct (truthy (getattr (receiver st) v PyNone)); cbn [negb];
      [|by apply IH].
    unfold setattr. rewrite Hk.
    pose proof (Hok (trace st) obj k matching_id n
                  (py_object (getattr (receiver st) v PyNone))) as Hret.
    destruct (IOServiceAddMatchingNotification _ _ _ _ _ _) as [ret it].
    cbn [fst] in Hret. subst ret. cbn [Z.eqb negb]. apply IH.
    by rewrite notify_writable.
Qed.

(** The events of the loop are paired, whatever the handlers do. *)
Lemma register_paired obj matching_id rest iterators st st' res :
  run_loop obj matching_id rest iterators st = (st', res) ->
  exists new, trace st' = trace st ++ new /\ paired new.
Proof.
  revert iterators st.
  induction rest as [|[[k v] n] rest IH]; intros iterators st Hrun.
  - injection Hrun as <- <-. exists []. rewrite app_nil_r.
    split; [reflexivity|constructor].
  - cbn [register] in Hrun.
    destruct (truthy (getattr (receiver st) v PyNone)); cbn [negb] in Hrun;
      [|by eapply IH].
    unfold setattr in Hrun. destruct (writable st (k +:+ "_ctype")) eqn:Hw.
    2: { injection Hrun as <- <-. exists []. rewrite app_nil_r.
         split; [reflexivity|constructor]. }
    destruct (IOServiceAddMatchingNotification _ _ _ _ _ _) as [ret it].
    destruct (Z.eqb_spec ret 0) as [->|Hret]; cbn [negb] in Hrun.
    + apply IH in Hrun as (new & Htrace & Hnew).
      rewrite notify_trace in Htrace. cbn [trace] in Htrace.
      eexists. split; [|by apply paired_bound, Hnew].
      rewrite Htrace, <- !app_assoc. reflexivity.
    + injection Hrun as <- <-. cbn [trace].
      eexists. split; [reflexivity|]. by apply paired_refused.
Qed.

Lemma addMatchingNotifications_unfold self matching st :
  run_add self matching st =
  run_loop (port_obj self) (pyobjc_id matching) notification_map ∅ st.
Proof. reflexivity. Qed.

Lemma addMatchingNotifications_registered self matching st st' res :
  keeps_handlers handler_body ->
  run_add self matching st = (st', res) ->
  exists new,
    trace st' = trace st ++ new /\
    registered wildcard (port_obj self) (pyobjc_id matching) (receiver st)
      (exposed (receiver st) notification_map) ∅ new res.
Proof.
  intros Hkeep Hrun. rewrite addMatchingNotifications_unfold in Hrun.
  exact (register_registered _ _ _ (receiver st) _ _ _ _ _ _ _ Hkeep
           ctype_names_fresh notification_map_names
           (fun v _ => eq_refl) Hrun).
Qed.

(** C1, amended. Take a receiver whose attributes that are true, among
    the ten names, are exactly those of the set [H], and handlers that do
    not rebind these names.  A registration that returns has issued
    exactly [|H|] requests and returns a mapping whose keys are exactly
    [H], each with the cursor of the request made for it.  When [H] is
    empty the mapping is empty and no request is made.  The registration
    returns whenever the registry accepts the requests and the receiver
    takes the attributes for the boxes. *)
Theorem addMatchingNotifications_subscribes_exposed
    self matching st (H : gset string) :
  keeps_handlers handler_body ->
  (forall v, v ∈ H <->
     v ∈ handler_names /\ truthy (getattr (receiver st) v PyNone) = true) ->
  (H = ∅ -> run_add self matching st = (st, Return ∅)) /\
  (accepts_all IOServiceAddMatchingNotification ->
   accepts_boxes st ->
     exists st' iterators,
       run_add self matching st = (st', Return iterators)) /\
  (forall st' iterators,
     run_add self matching st = (st', Return iterators) ->
     exists new,
       trace st' = trace st ++ new /\
       dom iterators = H /\
       length (requests new) = size H /\
       forall v, v ∈ H ->
         exists k n it,
           (k, v, n) ∈ notification_map /\
           Subscribe (port_obj self) k (pyobjc_id matching) n
             (py_object (getattr (receiver st) v PyNone)) 0 it ∈ new /\
           iterators !! v = Some it).
Proof.
  intros Hkeep HH.
  destruct (exposed_names (receiver st) H HH) as (Hnd & Hset & Hlen).
  split; [|split].
  - intros ->. rewrite addMatchingNotifications_unfold.
    apply register_nothing_exposed.
    rewrite size_empty in Hlen. by apply nil_length_inv.
  - intros Hok Hboxes. rewrite addMatchingNotifications_unfold.
    apply register_returns; [exact Hok|].
    apply Forall_forall. intros e He. apply Hboxes. unfold ctype_names.
    by apply (list_elem_of_fmap_2
                (fun e : string * string * Notification => e.1.1 +:+ "_ctype")).
  - intros st' iterators Hrun.
    destruct (addMatchingNotifications_registered _ _ _ _ _ Hkeep Hrun)
      as (new & Htrace & Hreg).
    exists new. split; [exact Htrace|]. split; [|split].
    + rewrite (registered_dom _ _ _ _ _ _ _ _ Hreg), dom_empty_L, Hset.
      apply (left_id_L ∅ (∪)).
    + rewrite requests_length.
      destruct (registered_subscriptions _ _ _ _ _ _ _ _ Hreg) as [_ Hall].
      rewrite (Hall _ eq_refl), length_fmap. exact Hlen.
    + intros v Hv. rewrite <- Hset, elem_of_list_to_set in Hv.
      apply list_elem_of_fmap in Hv as ([[k v'] n] & -> & He).
      cbn [fst snd].
      destruct (registered_cursor _ _ _ _ _ _ _ _ k v' n Hreg Hnd He)
        as (it & Hev & Hit).
      exists k, n, it. split; [|by split].
      by apply exposed_elem in He as [He _].
Qed.

(** Each entry of the tuple makes at most one request, in the order of
    the tuple, whatever the handlers do. *)
Lemma register_subscriptions_sublist obj matching_id rest iterators st st' res :
  run_loop obj matching_id rest iterators st = (st', res) ->
  exists new,
    trace st' = trace st ++ new /\
    subscriptions new `sublist_of` (entry_key <$> rest).
Proof.
  revert iterators st.
  induction rest as [|[[k v] n] rest IH]; intros iterators st Hrun.
  - injection Hrun as <- <-. exists []. rewrite app_nil_r.
    split; [reflexivity|constructor].
  - cbn [register] in Hrun. rewrite fmap_cons.
    destruct (truthy (getattr (receiver st) v PyNone)); cbn [negb] in Hrun.
    2: { apply IH in Hrun as (new & Htrace & Hsub).
         exists new. split; [exact Htrace|]. by apply sublist_cons. }
    unfold setattr in Hrun. destruct (writable st (k +:+ "_ctype")) eqn:Hw.
    2: { injection Hrun as <- <-. exists []. rewrite app_nil_r.
         split; [reflexivity|apply sublist_nil_l]. }
    destruct (IOServiceAddMatchingNotification _ _ _ _ _ _) as [ret it].
    destruct (Z.eqb_spec ret 0) as [->|Hret]; cbn [negb] in Hrun.
    + apply IH in Hrun as (new & Htrace & Hsub).
      rewrite notify_trace in Htrace. cbn [trace] in Htrace.
      eexists (_ :: handler_call n _ it ++ new). split.
      * rewrite Htrace, <- !app_assoc. reflexivity.
      * change (subscriptions (?e :: ?tr)) with ((k, n) :: subscriptions tr).
        rewrite subscriptions_handler_call. by apply sublist_skip.
    + injection Hrun as <- <-. cbn [trace].
      eexists. split; [reflexivity|].
      apply sublist_skip, sublist_nil_l.
Qed.

(** C5, amended. The loop tests the truth value of the attribute, not
    whether it can be called.  For each of the ten names, a request is
    made for it only if the attribute of that name is true for Python
    (bound, and neither [None] nor otherwise false); and in a
    registration that returns, a request has been made for every name
    whose attribute is true. *)
Theorem subscription_iff_truthy self matching st st' res k v n :
  keeps_handlers handler_body ->
  (k, v, n) ∈ notification_map ->
  run_add self matching st = (st', res) ->
  exists new,
    trace st' = trace st ++ new /\
    ((k, n) ∈ subscriptions new ->
       truthy (getattr (receiver st) v PyNone) = true) /\
    ((exists iterators, res = Return iterators) ->
       truthy (getattr (receiver st) v PyNone) = true ->
       (k, n) ∈ subscriptions new).
Proof.
  intros Hkeep Hentry Hrun.
  destruct (addMatchingNotifications_registered _ _ _ _ _ Hkeep Hrun)
    as (new & Htrace & Hreg).
  destruct (registered_subscriptions _ _ _ _ _ _ _ _ Hreg) as [Hpre Hall].
  exists new. split; [exact Htrace|]. split.
  - intros Hin. apply (elem_of_prefix _ _ _ Hin) in Hpre.
    apply list_elem_of_fmap in Hpre as (e & Hkey & He).
    apply exposed_elem in He as [He Ht].
    assert (e = (k, v, n)) as ->; [|exact Ht].
    by apply (fmap_NoDup_inj entry_key notification_map _ _ entry_keys_NoDup).
  - intros [iterators ->] Ht. rewrite (Hall _ eq_refl).
    apply (list_elem_of_fmap_2 entry_key _ (k, v, n)).
    by apply exposed_elem.
Qed.

(** C4, amended. A registration makes at most one request for each pair
    of a notification type and a form, hence at most two for a
    notification type.  The two forms are bound independently: when the
    receiver exposes both for one notification type and the
    registration returns, both requests have been made. *)
Theorem one_subscription_per_kind_and_form self matching st st' res :
  run_add self matching st = (st', res) ->
  exists new,
    trace st' = trace st ++ new /\
    NoDup (subscriptions new) /\
    (forall k,
       (length (filter (fun s : string * Notification => s.1 = k)
                  (subscriptions new)) <= 2)%nat) /\
    (keeps_handlers handler_body ->
     forall iterators k v v',
       res = Return iterators ->
       (k, v, _notification) ∈ notification_map ->
       (k, v', _path_notification) ∈ notification_map ->
       truthy (getattr (receiver st) v PyNone) = true ->
       truthy (getattr (receiver st) v' PyNone) = true ->
       (k, _notification) ∈ subscriptions new /\
       (k, _path_notification) ∈ subscriptions new).
Proof.
  intros Hrun. pose proof Hrun as Hloop.
  rewrite addMatchingNotifications_unfold in Hloop.
  destruct (register_subscriptions_sublist _ _ _ _ _ _ _ Hloop)
    as (new & Htrace & Hsub).
  assert (Hnd : NoDup (subscriptions new))
    by (eapply sublist_NoDup; [exact entry_keys_NoDup|exact Hsub]).
  exists new. split; [exact Htrace|]. split; [exact Hnd|]. split.
  - intros k.
    change 2%nat with (length [(k, _notification); (k, _path_notification)]).
    apply submseteq_length, NoDup_submseteq; [by apply NoDup_filter|].
    intros [k' n] [Hk _]%list_elem_of_filter. cbn in Hk. subst k'.
    destruct n; [by left|by right; left].
  - intros Hkeep iterators k v v' -> Hraw Hpath Ht Ht'.
    destruct (addMatchingNotifications_registered _ _ _ _ _ Hkeep Hrun)
      as (new' & Htrace' & Hreg).
    assert (new' = new) as ->.
    { rewrite Htrace in Htrace'. by apply app_inv_head in Htrace'. }
    destruct (registered_subscriptions _ _ _ _ _ _ _ _ Hreg) as [_ Hall].
    rewrite (Hall _ eq_refl). split.
    + apply (list_elem_of_fmap_2 entry_key _ (k, v, _notification)).
      by apply exposed_elem.
    + apply (list_elem_of_fmap_2 entry_key _ (k, v', _path_notification)).
      by apply exposed_elem.
Qed.

(** C9. In every registration, a request that the registry accepts is
    followed at once, before anything else happens, by the call of its
    handler with the iterator (raw form) or the path generator (path
    form) over the cursor of that request; and a handler is called only
    there, so once for its request. *)
Theorem handler_called_on_subscription self matching st st' res :
  run_add self matching st = (st', res) ->
  exists new,
    trace st' = trace st ++ new /\
    (forall pre post obj k matching_id n wrap it,
       new = pre ++ Subscribe obj k matching_id n wrap 0 it :: post ->
       callable (unbox wrap) = true ->
       exists post', post = Call (unbox wrap) (argument n it) :: post') /\
    (forall pre post f arg,
       new = pre ++ Call f arg :: post ->
       exists pre' obj k matching_id n wrap it,
         pre = pre' ++ [Subscribe obj k matching_id n wrap 0 it] /\
         f = unbox wrap /\ arg = argument n it).
Proof.
  intros Hrun. rewrite addMatchingNotifications_unfold in Hrun.
  destruct (register_paired _ _ _ _ _ _ _ Hrun) as (new & Htrace & Hnew).
  exists new. split; [exact Htrace|]. split.
  - by apply paired_call_follows.
  - by apply paired_call_preceded.
Qed.

End RegistrationClaims.

(** *** The registration on examples *)

Lemma quiet_keeps_handlers : keeps_handlers Example.quiet.
Proof. intros f arg r v _. reflexivity. Qed.

Lemma accept_accepts_all : accepts_all Example.accept.
Proof. intros tr obj k matching_id n wrap. reflexivity. Qed.

(** Every receiver exposes some set of the ten names. *)
Lemma exposed_set_spec (r : gmap string PyVal) v :
  v ∈ (list_to_set ((fun e : string * string * Notification => e.1.2) <$>
         exposed r notification_map) : gset string) <->
  v ∈ handler_names /\ truthy (getattr r v PyNone) = true.
Proof.
  rewrite elem_of_list_to_set, list_elem_of_fmap. split.
  - intros (e & -> & He). apply exposed_elem in He as [He Ht].
    split; [by apply entry_name_elem|exact Ht].
  - intros [Hv Ht]. unfold handler_names in Hv.
    apply list_elem_of_fmap in Hv as (e & -> & He).
    exists e. split; [reflexivity|]. by apply exposed_elem.
Qed.

Lemma fresh_accepts_boxes r : accepts_boxes (Example.fresh r).
Proof. intros name _. reflexivity. Qed.

Lemma addMatchingNotifications_subscribes_exposed_witness :
  exists st' iterators,
    addMatchingNotifications Example.accept Example.quiet
      Example.no_IOException Example.port Example.matching
      (Example.fresh Example.path_receiver) = (st', Return iterators) /\
    dom iterators = {[ "on_path_match"; "on_path_terminate" ]} /\
    length (requests (trace st')) = 2%nat.
Proof.
  destruct (addMatchingNotifications_subscribes_exposed
              Example.accept Example.quiet Example.no_IOException
              Example.port Example.matching
              (Example.fresh Example.path_receiver)
              (list_to_set
                 ((fun e : string * string * Notification => e.1.2) <$>
                    exposed Example.path_receiver notification_map))
              quiet_keeps_handlers
              (exposed_set_spec Example.path_receiver))
    as (_ & Hreturns & Hspec).
  destruct (Hreturns accept_accepts_all (fresh_accepts_boxes _))
    as (st' & iterators & Hrun).
  destruct (Hspec st' iterators Hrun) as (new & Htrace & Hdom & Hlen & _).
  exists st', iterators. split; [exact Hrun|]. split.
  - rewrite Hdom. apply (bool_decide_unpack _). vm_compute. exact I.
  - rewrite Htrace. exact Hlen.
Defined.

(** C1, as stated, fails.  A receiver whose one handler is [on_match] and
    that takes no new attribute: the registration raises the
    [AttributeError] of [setattr] before any request, so it makes no
    request and returns no mapping, where the claim has one request and
    the key [on_match].  And a receiver whose one handler is [on_publish],
    which binds [on_terminate] when it runs: the registration makes two
    requests and returns two keys, where the claim has one of each.  And
    a receiver whose only member that can be called, [on_terminate], is
    false, while its [on_match] is the number 1: the mapping returned has
    the key [on_match] and not the key [on_terminate]. *)
Lemma exposed_set_not_always_subscribed :
  (exposed Example.match_receiver notification_map =
     [(kIOMatchedNotification, "on_match", _notification)] /\
   Example.frozen_run.2 = Raise AttributeError /\
   trace Example.frozen_run.1 = []) /\
  (exposed Example.publish_receiver notification_map =
     [(kIOPublishNotification, "on_publish", _notification)] /\
   Example.rebinding_run.2 =
     Return {[ "on_publish" := 100; "on_terminate" := 101 ]} /\
   length (requests (trace Example.rebinding_run.1)) = 2%nat) /\
  (callable (getattr Example.odd_receiver "on_match" PyNone) = false /\
   callable (getattr Example.odd_receiver "on_terminate" PyNone) = true /\
   Example.odd_run.2 = Return {[ "on_match" := 100 ]}).
Proof. repeat split; vm_compute; reflexivity. Qed.

Lemma path_match_entry :
  (kIOMatchedNotification, "on_path_match", _path_notification)
    ∈ notification_map.
Proof. apply (bool_decide_unpack _). vm_compute. exact I. Qed.

Lemma match_entry :
  (kIOMatchedNotification, "on_match", _notification) ∈ notification_map.
Proof. apply (bool_decide_unpack _). vm_compute. exact I. Qed.

Lemma subscription_iff_truthy_witness :
  (kIOMatchedNotification, _path_notification)
    ∈ subscriptions (trace Example.path_run.1).
Proof.
  destruct (subscription_iff_truthy
              Example.accept Example.quiet Example.no_IOException
              Example.port Example.matching
              (Example.fresh Example.path_receiver)
              Example.path_run.1 Example.path_run.2
              kIOMatchedNotification "on_path_match" _path_notification
              quiet_keeps_handlers path_match_entry
              (surjective_pairing Example.path_run))
    as (new & Htrace & _ & Hif).
  rewrite Htrace. apply Hif; [|reflexivity].
  eexists. vm_compute. reflexivity.
Defined.

Lemma one_subscription_per_kind_and_form_witness :
  NoDup (subscriptions (trace Example.both_run.1)) /\
  (kIOMatchedNotification, _notification)
    ∈ subscriptions (trace Example.both_run.1) /\
  (kIOMatchedNotification, _path_notification)
    ∈ subscriptions (trace Example.both_run.1).
Proof.
  destruct (one_subscription_per_kind_and_form
              Example.accept Example.quiet Example.no_IOException
              Example.port Example.matching
              (Example.fresh Example.both_forms)
              Example.both_run.1 Example.both_run.2
              (surjective_pairing Example.both_run))
    as (new & Htrace & Hnd & _ & Hboth).
  rewrite Htrace. split; [exact Hnd|].
  apply (Hboth quiet_keeps_handlers
           {[ "on_match" := 100; "on_path_match" := 101 ]}
           kIOMatchedNotification "on_match" "on_path_match").
  - vm_compute. reflexivity.
  - exact match_entry.
  - exact path_match_entry.
  - reflexivity.
  - reflexivity.
Defined.

Lemma handler_called_on_subscription_witness :
  exists post,
    trace Example.path_run.1 =
    Subscribe 7 kIOMatchedNotification 9 _path_notification
      (py_object (PyFunction "on_path_match")) 0 100
    :: Call (PyFunction "on_path_match") (ArgGenerator (path_generator 100))
    :: post.
Proof.
  destruct (handler_called_on_subscription
              Example.accept Example.quiet Example.no_IOException
              Example.port Example.matching
              (Example.fresh Example.path_receiver)
              Example.path_run.1 Example.path_run.2
              (surjective_pairing Example.path_run))
    as (new & Htrace & Hfollows & _).
  assert (Hcomp :
    trace Example.path_run.1 =
    [ Subscribe 7 kIOMatchedNotification 9 _path_notification
        (py_object (PyFunction "on_path_match")) 0 100;
      Call (PyFunction "on_path_match") (ArgGenerator (path_generator 100));
      Subscribe 7 kIOTerminatedNotification 9 _path_notification
        (py_object (PyFunction "on_path_terminate")) 0 101;
      Call (PyFunction "on_path_terminate")
        (ArgGenerator (path_generator 101)) ])
    by (vm_compute; reflexivity).
  rewrite Hcomp in Htrace. cbn [Example.fresh trace app] in Htrace.
  subst new.
  destruct (Hfollows [] _ _ _ _ _ _ _ eq_refl eq_refl) as (post' & Hpost).
  exists post'. rewrite Hcomp. f_equal. exact Hpost.
Defined.

(** C4, as stated, fails.  With [on_match] and [on_path_match] on the
    receiver, the registration makes two requests for
    [kIOMatchedNotification], and the raw handler is called as well as the
    path handler: the binding of the raw form takes effect too. *)
Lemma both_forms_subscribed :
  Example.both_run.2 = Return {[ "on_match" := 100; "on_path_match" := 101 ]} /\
  trace Example.both_run.1 =
  [ Subscribe 7 kIOMatchedNotification 9 _notification
      (py_object (PyFunction "on_match")) 0 100;
    Call (PyFunction "on_match") (ArgIterator {| _obj := 100 |});
    Subscribe 7 kIOMatchedNotification 9 _path_notification
      (py_object (PyFunction "on_path_match")) 0 101;
    Call (PyFunction "on_path_match") (ArgGenerator (path_generator 101)) ].
Proof. split; vm_compute; reflexivity. Qed.

(** C5, as stated, fails.  The attribute [on_match] is the number 1, which
    cannot be called, and a request is made for it; the attribute
    [on_terminate] can be called and is false, and no request is made for
    it. *)
Lemma truth_not_callability :
  callable (getattr Example.odd_receiver "on_match" PyNone) = false /\
  callable (getattr Example.odd_receiver "on_terminate" PyNone) = true /\
  Example.odd_run.2 = Return {[ "on_match" := 100 ]} /\
  trace Example.odd_run.1 =
  [ Subscribe 7 kIOMatchedNotification 9 _notification
      (py_object (PyInt 1)) 0 100 ].
Proof. repeat split; vm_compute; reflexivity. Qed.

(** C3: what the code does when the third of four requests is refused.
    The first two requests stay as they were accepted, and the caller
    gets the [NameError] of the unbound name [IOException], which carries
    no status. *)
Theorem refused_request_raises_NameError :
  Example.refused_run.2 = Raise (NameError "IOException") /\
  trace Example.refused_run.1 =
  [ Subscribe 7 kIOPublishNotification 9 _notification
      (py_object (PyFunction "on_publish")) 0 100;
    Call (PyFunction "on_publish") (ArgIterator {| _obj := 100 |});
    Subscribe 7 kIOFirstPublishNotification 9 _notification
      (py_object (PyFunction "on_first_publish")) 0 101;
    Call (PyFunction "on_first_publish") (ArgIterator {| _obj := 101 |});
    Subscribe 7 kIOMatchedNotification 9 _notification
      (py_object (PyFunction "on_match")) (-536870212) 0 ].
Proof. split; vm_compute; reflexivity. Qed.

(** C6: what the code does when both forms of a notification type are
    bound.  Both requests are accepted, each with its own box as context,
    and both boxes are stored under the one attribute
    [IOServiceMatched_ctype]: the receiver ends up holding the box of the
    path handler only, and no attribute holds the box of the raw handler,
    which the registry still has as the context of its request. *)
Theorem raw_reference_overwritten :
  Subscribe 7 kIOMatchedNotification 9 _notification
    (py_object (PyFunction "on_match")) 0 100 ∈ trace Example.both_run.1 /\
  receiver Example.both_run.1 !! "IOServiceMatched_ctype" =
    Some (py_object (PyFunction "on_path_match")) /\
  py_object (PyFunction "on_match")
    ∉ kept_references (receiver Example.both_run.1).
Proof.
  split; [|split].
  - apply (bool_decide_unpack _). vm_compute. exact I.
  - vm_compute. reflexivity.
  - apply (bool_decide_unpack _). vm_compute. exact I.
Qed.

(** * Further properties *)

(** ** Loops over the iterators *)

Section LoopFacts.

Context {W : Type}.
Variable IOIteratorNext : W -> Z -> W * Z.
Variable search : Z -> string -> string -> Z -> Z -> option Z.
Variable objc_object : option Z -> Result PyVal.

(** X1. A [for] statement over an [IOIterator] whose cursor holds the
    handles [hs] passes exactly [hs] to its body, in order, and ends
    normally: one call of [next()] more than there are handles is
    enough. *)
Theorem for_services_enumerates w cursor hs fuel :
  enumerates IOIteratorNext w cursor hs ->
  (length hs < fuel)%nat ->
  for_services IOIteratorNext fuel {| _obj := cursor |} w =
  Some (hs, Return tt).
Proof.
  unfold for_services, __iter__.
  revert w fuel. induction hs as [|h hs IH]; intros w fuel Hw Hfuel.
  - destruct fuel as [|fuel]; [cbn in Hfuel; lia|].
    destruct (enumerates_nil _ _ _ Hw) as (w' & Hstep & _).
    cbn [services_loop]. unfold next. cbn [_obj]. rewrite Hstep.
    reflexivity.
  - destruct fuel as [|fuel]; [cbn in Hfuel; lia|].
    destruct (enumerates_cons _ _ _ _ _ Hw) as (Hh & w' & Hstep & Hw').
    cbn [services_loop]. unfold next. cbn [_obj]. rewrite Hstep.
    destruct (Z.eqb_spec h 0) as [|_]; [contradiction|].
    rewrite (IH w' fuel Hw'); [reflexivity|]. cbn in Hfuel. lia.
Qed.

(** X2. An [IOIterator] keeps no record of exhaustion: each [next()] asks
    the registry again.  When the cursor answers 0 and then hands out the
    handles [hs], the first call raises [StopIteration] and the calls
    after it return [hs]. *)
Theorem IOIterator_resumes w cursor hs :
  Forall (fun h => h <> 0) hs ->
  registry_pulls IOIteratorNext (S (length hs)) cursor w = 0 :: hs ->
  next_calls IOIteratorNext (S (length hs)) {| _obj := cursor |} w =
  Raise StopIteration :: (Return <$> hs).
Proof.
  intros Hnz Hpull. rewrite next_calls_pulls. cbn [_obj].
  rewrite Hpull, fmap_cons. by rewrite sentinel_handles.
Qed.

(** X3. A path generator that has raised is exhausted for good: whatever
    it raised, and whatever the registry would answer afterwards, every
    later [next()] raises [StopIteration]. *)
Theorem path_generator_stays_exhausted g w w' g' e :
  generator_next IOIteratorNext search objc_object g w = (w', g', Raise e) ->
  forall m w'',
    generator_calls IOIteratorNext search objc_object m g' w'' =
    replicate m (Raise StopIteration).
Proof.
  intros Hnext m w''. apply generator_calls_finished.
  unfold generator_next in Hnext.
  destruct (finished g) eqn:Hg.
  - by injection Hnext as _ <- _.
  - destruct (next IOIteratorNext (source g) w) as [w1 [service|e1]].
    + destruct (IORegistryEntrySearchCFProperty _ _ _ _ _ _ _);
        [discriminate|]. by injection Hnext as _ <- _.
    + by injection Hnext as _ <- _.
Qed.

(** X4. When the lookup of a handle raises, the path generator raises the
    same exception at that handle, after the paths of the handles before
    it, and is exhausted from then on: the handles after it are never
    looked up. *)
Theorem path_generator_lookup_raises w cursor hs h rest paths e :
  enumerates IOIteratorNext w cursor (hs ++ h :: rest) ->
  path_of search objc_object <$> hs = Return <$> paths ->
  path_of search objc_object h = Raise e ->
  forall m,
    generator_calls IOIteratorNext search objc_object (length hs + S m)
      (path_generator cursor) w =
    (Return <$> paths) ++ Raise e :: replicate m (Raise StopIteration).
Proof.
  revert w paths. induction hs as [|h0 hs IH]; intros w paths Hw Hpaths He m.
  - destruct paths; [|discriminate].
    destruct (enumerates_cons _ _ _ _ _ Hw) as (Hh & w' & Hstep & _).
    cbn [length Nat.add generator_calls app fmap list_fmap].
    unfold generator_next, next.
    cbn [finished path_generator source _obj]. rewrite Hstep.
    destruct (Z.eqb_spec h 0) as [|_]; [contradiction|].
    unfold path_of in He. rewrite He. f_equal.
    by apply generator_calls_finished.
  - destruct paths as [|p paths]; [discriminate|].
    rewrite !fmap_cons in Hpaths. injection Hpaths as Hp Hrest.
    destruct (enumerates_cons _ _ _ _ _ Hw) as (Hh & w' & Hstep & Hw').
    cbn [length Nat.add generator_calls]. unfold generator_next, next.
    cbn [finished path_generator source _obj]. rewrite Hstep.
    destruct (Z.eqb_spec h0 0) as [|_]; [contradiction|].
    unfold path_of in Hp. rewrite Hp.
    rewrite fmap_cons. cbn [app]. f_equal.
    by apply IH.
Qed.

(** X5. A [for] statement over the path generator of a cursor whose
    handles all have a path passes exactly those paths to its body, in the
    order of the cursor, and ends normally. *)
Theorem for_paths_enumerates w cursor hs paths fuel :
  enumerates IOIteratorNext w cursor hs ->
  path_of search objc_object <$> hs = Return <$> paths ->
  (length hs < fuel)%nat ->
  for_paths IOIteratorNext search objc_object fuel (path_generator cursor) w =
  Some (paths, Return tt).
Proof.
  revert w paths fuel.
  induction hs as [|h hs IH]; intros w paths fuel Hw Hpaths Hfuel.
  - destruct paths; [|discriminate].
    destruct fuel as [|fuel]; [cbn in Hfuel; lia|].
    destruct (enumerates_nil _ _ _ Hw) as (w' & Hstep & _).
    cbn [for_paths]. unfold generator_next, next.
    cbn [finished path_generator source _obj]. rewrite Hstep.
    reflexivity.
  - destruct paths as [|p paths]; [discriminate|].
    rewrite !fmap_cons in Hpaths. injection Hpaths as Hp Hrest.
    destruct fuel as [|fuel]; [cbn in Hfuel; lia|].
    destruct (enumerates_cons _ _ _ _ _ Hw) as (Hh & w' & Hstep & Hw').
    cbn [for_paths]. unfold generator_next, next.
    cbn [finished path_generator source _obj]. rewrite Hstep.
    destruct (Z.eqb_spec h 0) as [|_]; [contradiction|].
    unfold path_of in Hp. rewrite Hp.
    fold (path_generator cursor).
    rewrite (IH w' paths fuel Hw' Hrest); [reflexivity|].
    cbn in Hfuel. lia.
Qed.

End LoopFacts.

(** ** Registration *)

Lemma accepted_handler_call n attr it : Forall accepted (handler_call n attr it).
Proof. unfold handler_call. destruct (callable attr); repeat constructor. Qed.

Lemma well_targeted_handler_call obj matching_id n attr it :
  Forall (well_targeted obj matching_id) (handler_call n attr it).
Proof.
  unfold handler_call. destruct (callable attr) eqn:Hc; repeat constructor.
  exact Hc.
Qed.

Lemma exposed_agree r0 r rest :
  agree r0 r ->
  Forall (fun e : string * string * Notification => e.1.2 ∈ handler_names) rest ->
  exposed r rest = exposed r0 rest.
Proof.
  intros Hr. induction 1 as [|e rest He _ IH]; [reflexivity|].
  rewrite !exposed_cons, IH. by rewrite (agree_getattr r0 r _ Hr He).
Qed.

(** Two notification types with the same box attribute are the same. *)
Lemma ctype_name_inj (e e' : string * string * Notification) :
  e ∈ notification_map -> e' ∈ notification_map ->
  e.1.1 +:+ "_ctype" = e'.1.1 +:+ "_ctype" -> e.1.1 = e'.1.1.
Proof.
  assert (H : Forall (fun e : string * string * Notification =>
                Forall (fun e' : string * string * Notification =>
                  e.1.1 +:+ "_ctype" = e'.1.1 +:+ "_ctype" -> e.1.1 = e'.1.1)
                  notification_map) notification_map).
  { apply (bool_decide_unpack _). vm_compute. exact I. }
  intros He He'. rewrite Forall_forall in H. specialize (H e He).
  rewrite Forall_forall in H. exact (H e' He').
Qed.

Lemma registered_calls wildcard obj matching_id r es iterators new iterators' :
  registered wildcard obj matching_id r es iterators new (Return iterators') ->
  NoDup ((fun e : string * string * Notification => e.1.2) <$> es) ->
  forall f arg,
    Call f arg ∈ new ->
    exists k v n it,
      (k, v, n) ∈ es /\ f = getattr r v PyNone /\ arg = argument n it /\
      iterators' !! v = Some it.
Proof.
  remember (Return iterators') as res eqn:Hres. intros Hrun. revert Hres.
  induction Hrun as [its|k0 v0 n0 es its it new res Hrun IH| |];
    intros Hres Hnd f arg Hin.
  - by inversion Hin.
  - rewrite fmap_cons in Hnd. apply NoDup_cons in Hnd as [Hv0 Hnd].
    cbn [fst snd] in Hv0.
    apply elem_of_cons in Hin as [Heq|Hin]; [discriminate|].
    apply elem_of_app in Hin as [Hin|Hin].
    + unfold handler_call in Hin.
      destruct (callable (getattr r v0 PyNone)); [|by inversion Hin].
      apply list_elem_of_singleton in Hin. injection Hin as -> ->.
      exists k0, v0, n0, it. split; [by left|]. split; [reflexivity|].
      split; [reflexivity|]. subst res.
      rewrite (registered_lookup_other _ _ _ _ _ _ _ _ _ Hrun Hv0).
      apply lookup_insert_eq.
    + destruct (IH Hres Hnd f arg Hin) as (k & v & n & it' & He & ? & ? & ?).
      exists k, v, n, it'. split; [by right|done].
  - discriminate.
  - discriminate.
Qed.

Section RegistrationMore.

Variable IOServiceAddMatchingNotification :
  list Event -> Z -> string -> Z -> Notification -> PyVal -> Z * Z.
Variable handler_body :
  PyVal -> HandlerArg -> gmap string PyVal -> gmap string PyVal.
Variable wildcard : string -> bool.

Abbreviation loop :=
  (register IOServiceAddMatchingNotification handler_body wildcard).
Abbreviation add :=
  (addMatchingNotifications IOServiceAddMatchingNotification handler_body
     wildcard).

Lemma register_outcome obj matching_id rest iterators st st' res :
  loop obj matching_id rest iterators st = (st', res) ->
  exists new,
    trace st' = trace st ++ new /\
    match res with
    | Return _ => Forall accepted new
    | Raise e =>
        (e = AttributeError /\ Forall accepted new /\
         exists k v n,
           (k, v, n) ∈ rest /\ writable st (k +:+ "_ctype") = false) \/
        (exists pre k n wrap ret it,
           new = pre ++ [Subscribe obj k matching_id n wrap ret it] /\
           ret <> 0 /\ Forall accepted pre /\
           e = raise_IOException wildcard ret /\
           receiver st' !! (k +:+ "_ctype") = Some wrap)
    end.
Proof.
  revert iterators st.
  induction rest as [|[[k v] n] rest IH]; intros iterators st Hrun.
  - injection Hrun as <- <-. exists []. rewrite app_nil_r.
    split; [reflexivity|constructor].
  - cbn [register] in Hrun.
    destruct (truthy (getattr (receiver st) v PyNone)); cbn [negb] in Hrun.
    2: { apply IH in Hrun as (new & Htrace & Hnew).
         exists new. split; [exact Htrace|].
         destruct res as [iterators'|e]; [exact Hnew|].
         destruct Hnew as [(He & Hacc & k' & v' & n' & Hin & Hw)|Hnew];
           [|by right].
         left. split; [exact He|]. split; [exact Hacc|].
         exists k', v', n'. split; [by right|exact Hw]. }
    unfold setattr in Hrun. destruct (writable st (k +:+ "_ctype")) eqn:Hw.
    2: { injection Hrun as <- <-. exists []. rewrite app_nil_r.
         split; [reflexivity|]. left. split; [reflexivity|].
         split; [constructor|]. exists k, v, n. split; [by left|exact Hw]. }
    destruct (IOServiceAddMatchingNotification _ _ _ _ _ _) as [ret it].
    destruct (Z.eqb_spec ret 0) as [->|Hret]; cbn [negb] in Hrun.
    + apply IH in Hrun as (new & Htrace & Hnew).
      rewrite notify_trace in Htrace. cbn [trace] in Htrace.
      eexists (_ :: handler_call n _ it ++ new). split.
      { rewrite Htrace, <- !app_assoc. reflexivity. }
      assert (Hall : Forall accepted new ->
                Forall accepted
                  (Subscribe obj k matching_id n
                     (py_object (getattr (receiver st) v PyNone)) 0 it
                   :: handler_call n (getattr (receiver st) v PyNone) it
                   ++ new)).
      { intros Hacc. constructor; [reflexivity|].
        apply Forall_app. split; [apply accepted_handler_call|exact Hacc]. }
      destruct res as [iterators'|e]; [by apply Hall|].
      destruct Hnew as [(He & Hacc & k' & v' & n' & Hin & Hw')|Hnew].
      * left. split; [exact He|]. split; [by apply Hall|].
        exists k', v', n'. split; [by right|].
        rewrite notify_writable in Hw'. exact Hw'.
      * right.
        destruct Hnew as (pre & k' & n' & wrap & ret & it' & -> & ? & ? & ? & ?).
        eexists (_ :: handler_call n _ it ++ pre), k', n', wrap, ret, it'.
        split; [cbn [app]; f_equal; apply app_assoc|].
        split; [assumption|]. split; [|by split].
        constructor; [reflexivity|].
        apply Forall_app. split; [apply accepted_handler_call|assumption].
    + injection Hrun as <- <-. cbn [trace receiver].
      eexists. split; [reflexivity|]. right.
      exists [], k, n, (py_object (getattr (receiver st) v PyNone)), ret, it.
      split; [reflexivity|]. split; [assumption|]. split; [constructor|].
      split; [reflexivity|]. apply lookup_insert_eq.
Qed.

Lemma register_well_targeted obj matching_id rest iterators st st' res :
  Forall (fun e => e ∈ notification_map) rest ->
  loop obj matching_id rest iterators st = (st', res) ->
  exists new,
    trace st' = trace st ++ new /\
    Forall (well_targeted obj matching_id) new.
Proof.
  revert iterators st.
  induction rest as [|[[k v] n] rest IH]; intros iterators st Hrest Hrun.
  - injection Hrun as <- <-. exists []. rewrite app_nil_r.
    split; [reflexivity|constructor].
  - inversion Hrest as [|? ? He Hrest']; subst. cbn [register] in Hrun.
    destruct (truthy (getattr (receiver st) v PyNone)) eqn:Ht;
      cbn [negb] in Hrun; [|by eapply IH].
    unfold setattr in Hrun. destruct (writable st (k +:+ "_ctype")) eqn:Hw.
    2: { injection Hrun as <- <-. exists []. rewrite app_nil_r.
         split; [reflexivity|constructor]. }
    destruct (IOServiceAddMatchingNotification _ _ _ _ _ _) as [ret it].
    assert (Hsub : well_targeted obj matching_id
              (Subscribe obj k matching_id n
                 (py_object (getattr (receiver st) v PyNone)) ret it)).
    { split; [reflexivity|]. split; [reflexivity|]. by eexists v, _. }
    destruct (Z.eqb_spec ret 0) as [->|Hret]; cbn [negb] in Hrun.
    + apply IH in Hrun as (new & Htrace & Hnew); [|assumption].
      rewrite notify_trace in Htrace. cbn [trace] in Htrace.
      eexists (_ :: handler_call n _ it ++ new). split.
      { rewrite Htrace, <- !app_assoc. reflexivity. }
      constructor; [exact Hsub|].
      apply Forall_app. split; [apply well_targeted_handler_call|exact Hnew].
    + injection Hrun as <- <-. cbn [trace].
      eexists. split; [reflexivity|]. by constructor.
Qed.

Lemma register_agree r0 obj matching_id rest iterators st st' res :
  keeps_handlers handler_body ->
  Forall (fun e => e.1.1 +:+ "_ctype" ∉ handler_names) rest ->
  agree r0 (receiver st) ->
  loop obj matching_id rest iterators st = (st', res) ->
  agree r0 (receiver st').
Proof.
  intros Hkeep. revert iterators st.
  induction rest as [|[[k v] n] rest IH]; intros iterators st Hfresh Hagree Hrun.
  - by injection Hrun as <- <-.
  - inversion Hfresh as [|? ? Hk Hfresh']; subst. cbn [fst snd] in Hk.
    cbn [register] in Hrun.
    destruct (truthy (getattr (receiver st) v PyNone)); cbn [negb] in Hrun;
      [|by eapply IH].
    unfold setattr in Hrun. destruct (writable st (k +:+ "_ctype")) eqn:Hw.
    2: { by injection Hrun as <- <-. }
    destruct (IOServiceAddMatchingNotification _ _ _ _ _ _) as [ret it].
    pose proof (agree_setattr r0 _ (k +:+ "_ctype")
                  (py_object (getattr (receiver st) v PyNone)) Hagree Hk)
      as Hset.
    destruct (Z.eqb_spec ret 0) as [->|Hret]; cbn [negb] in Hrun.
    + eapply IH; [exact Hfresh'| |exact Hrun].
      rewrite notify_receiver. cbn [receiver].
      destruct (callable _); [|exact Hset].
      intros v' Hv'. rewrite <- (Hset v' Hv').
      exact (Hkeep _ _ _ v' Hv').
    + by injection Hrun as <- <-.
Qed.

Lemma register_box r0 obj matching_id rest iterators st st' iterators' name box :
  keeps_handlers handler_body ->
  keeps_boxes handler_body ->
  name ∈ ctype_names ->
  Forall (fun e => e.1.1 +:+ "_ctype" ∉ handler_names) rest ->
  Forall (fun e => e.1.2 ∈ handler_names) rest ->
  agree r0 (receiver st) ->
  (forall k v n,
     (k, v, n) ∈ rest -> truthy (getattr r0 v PyNone) = true ->
     k +:+ "_ctype" = name -> py_object (getattr r0 v PyNone) = box) ->
  (receiver st !! name = Some box \/
   exists k v n,
     (k, v, n) ∈ rest /\ truthy (getattr r0 v PyNone) = true /\
     k +:+ "_ctype" = name) ->
  loop obj matching_id rest iterators st = (st', Return iterators') ->
  receiver st' !! name = Some box.
Proof.
  intros Hkeep Hboxes Hname. revert iterators st.
  induction rest as [|[[k v] n] rest IH];
    intros iterators st Hfresh Hnames Hagree Hsame Hsome Hrun.
  - injection Hrun as <- _. destruct Hsome as [H|(k & v & n & H & _)];
      [exact H|by inversion H].
  - inversion Hfresh as [|? ? Hk Hfresh']; subst.
    inversion Hnames as [|? ? Hv Hnames']; subst. cbn [fst snd] in Hk, Hv.
    cbn [register] in Hrun.
    rewrite (agree_getattr r0 _ v Hagree Hv) in Hrun.
    destruct (truthy (getattr r0 v PyNone)) eqn:Ht; cbn [negb] in Hrun.
    2: { eapply IH; [exact Hfresh'|exact Hnames'|exact Hagree| | |exact Hrun].
      - intros k' v' n' Hin. apply (Hsame k' v' n'). by right.
      - destruct Hsome as [H|(k' & v' & n' & Hin & Ht' & Hk')]; [by left|].
        right. exists k', v', n'. split; [|by split].
        apply elem_of_cons in Hin as [Heq|Hin]; [|exact Hin].
        injection Heq as -> -> ->. congruence. }
    unfold setattr in Hrun. destruct (writable st (k +:+ "_ctype")) eqn:Hw.
    2: { discriminate. }
    destruct (IOServiceAddMatchingNotification _ _ _ _ _ _) as [ret it].
    destruct (Z.eqb_spec ret 0) as [->|Hret]; cbn [negb] in Hrun;
      [|discriminate].
    pose proof (agree_setattr r0 _ (k +:+ "_ctype")
                  (py_object (getattr r0 v PyNone)) Hagree Hk) as Hset.
    eapply IH; [exact Hfresh'|exact Hnames'| | | |exact Hrun].
    + rewrite notify_receiver. cbn [receiver].
      destruct (callable _); [|exact Hset].
      intros v' Hv'. rewrite <- (Hset v' Hv').
      exact (Hkeep _ _ _ v' Hv').
    + intros k' v' n' Hin. apply (Hsame k' v' n'). by right.
    + rewrite notify_receiver. cbn [receiver].
      assert (Hlookup :
        (if callable (getattr r0 v PyNone)
         then handler_body (getattr r0 v PyNone) (argument n it)
                (<[k +:+ "_ctype" := py_object (getattr r0 v PyNone)]>
                   (receiver st))
         else <[k +:+ "_ctype" := py_object (getattr r0 v PyNone)]>
                (receiver st)) !! name =
        <[k +:+ "_ctype" := py_object (getattr r0 v PyNone)]>
          (receiver st) !! name).
      { destruct (callable _); [by apply Hboxes|reflexivity]. }
      rewrite Hlookup.
      destruct (decide (k +:+ "_ctype" = name)) as [Heq|Hne].
      * left. rewrite <- Heq, lookup_insert_eq. f_equal.
        apply (Hsame k v n); [by left|exact Ht|exact Heq].
      * rewrite lookup_insert_ne by exact Hne.
        destruct Hsome as [H|(k' & v' & n' & Hin & Ht' & Hk')]; [by left|].
        right. exists k', v', n'. split; [|by split].
        apply elem_of_cons in Hin as [Heq|Hin]; [|exact Hin].
        injection Heq as -> -> ->. contradiction.
Qed.

End RegistrationMore.

Lemma notification_map_entries :
  Forall (fun e : string * string * Notification => e ∈ notification_map)
    notification_map.
Proof. by apply Forall_forall. Qed.

Section RegistrationExtras.

Variable IOServiceAddMatchingNotification :
  list Event -> Z -> string -> Z -> Notification -> PyVal -> Z * Z.
Variable handler_body :
  PyVal -> HandlerArg -> gmap string PyVal -> gmap string PyVal.
Variable wildcard : string -> bool.

Abbreviation registration :=
  (addMatchingNotifications IOServiceAddMatchingNotification handler_body
     wildcard).

(** X6. The requests of a registration are made in the order of the
    tuple: the raw forms first, then the path forms, each group in the
    order publish, first publish, match, first match, terminate. *)
Theorem requests_in_tuple_order self matching st st' res :
  registration self matching st = (st', res) ->
  exists new,
    trace st' = trace st ++ new /\
    subscriptions new `sublist_of` (entry_key <$> notification_map).
Proof.
  intros Hrun. rewrite addMatchingNotifications_unfold in Hrun.
  exact (register_subscriptions_sublist _ _ _ _ _ _ _ _ _ _ Hrun).
Qed.

(** X7. A registration only ever asks the registry about its own port and
    the filter it was given, for an entry of the tuple and with the box of
    an attribute that is true; and it only ever calls something
    callable. *)
Theorem requests_on_own_port self matching st st' res :
  registration self matching st = (st', res) ->
  exists new,
    trace st' = trace st ++ new /\
    Forall (well_targeted (port_obj self) (pyobjc_id matching)) new.
Proof.
  intros Hrun. rewrite addMatchingNotifications_unfold in Hrun.
  exact (register_well_targeted _ _ _ _ _ _ _ _ _ _
           notification_map_entries Hrun).
Qed.

(** X8. A registration that returns had all its requests accepted.  A
    registration that raises stopped in one of two ways.  Either the
    receiver refused the attribute for a box: the error is the
    [AttributeError] of [setattr], and every request made before was
    accepted.  Or a request was refused: it is the last event, nothing is
    requested or called after it, every request before it was accepted,
    and the box made for it is already stored on the receiver. *)
Theorem registration_stops_at_refusal self matching st st' res :
  registration self matching st = (st', res) ->
  exists new,
    trace st' = trace st ++ new /\
    (forall iterators, res = Return iterators -> Forall accepted new) /\
    (forall e, res = Raise e ->
       (e = AttributeError /\ Forall accepted new /\
        exists k v n,
          (k, v, n) ∈ notification_map /\
          writable st (k +:+ "_ctype") = false) \/
       (exists pre k n wrap ret it,
          new = pre ++ [Subscribe (port_obj self) k (pyobjc_id matching) n
                          wrap ret it] /\
          ret <> 0 /\ Forall accepted pre /\
          receiver st' !! (k +:+ "_ctype") = Some wrap)).
Proof.
  intros Hrun. rewrite addMatchingNotifications_unfold in Hrun.
  destruct (register_outcome _ _ _ _ _ _ _ _ _ _ Hrun) as (new & Htrace & Hres).
  exists new. split; [exact Htrace|]. split.
  - by intros iterators ->.
  - intros e ->. destruct Hres as [Hres|Hres]; [by left|right].
    destruct Hres as (pre & k & n & wrap & ret & it & ? & ? & ? & _ & ?).
    by exists pre, k, n, wrap, ret, it.
Qed.

(** When the receiver takes the boxes, a registration raises only at a
    refused request, with what [raise IOException(ret)] raises; the
    requests made before it were all accepted, and stay in the trace. *)
Lemma refused_registration self matching st st' e :
  accepts_boxes st ->
  registration self matching st = (st', Raise e) ->
  exists pre k n wrap ret it,
    trace st' =
    trace st ++ pre ++
      [Subscribe (port_obj self) k (pyobjc_id matching) n wrap ret it] /\
    ret <> 0 /\
    e = raise_IOException wildcard ret /\
    Forall accepted pre.
Proof.
  intros Hboxes Hrun. rewrite addMatchingNotifications_unfold in Hrun.
  destruct (register_outcome _ _ _ _ _ _ _ _ _ _ Hrun) as (new & Htrace & Hres).
  destruct Hres as [(_ & _ & k & v & n & Hin & Hw)|Hres].
  - exfalso. rewrite Hboxes in Hw; [discriminate|]. unfold ctype_names.
    by apply (list_elem_of_fmap_2
                (fun e : string * string * Notification => e.1.1 +:+ "_ctype")
                _ (k, v, n)).
  - destruct Hres as (pre & k & n & wrap & ret & it & -> & ? & ? & ? & _).
    by exists pre, k, n, wrap, ret, it.
Qed.

Lemma addMatchingNotifications_agree self matching st st' res :
  keeps_handlers handler_body ->
  registration self matching st = (st', res) ->
  agree (receiver st) (receiver st').
Proof.
  intros Hkeep Hrun. rewrite addMatchingNotifications_unfold in Hrun.
  assert (Hagree : agree (receiver st) (receiver st)) by (by intros ? _).
  exact (register_agree _ _ _ _ _ _ _ _ _ _ _ Hkeep ctype_names_fresh
           Hagree Hrun).
Qed.

(** X9. A registration leaves the ten method attributes of the receiver
    as they were, whether it returns or raises: what it writes are the
    [_ctype] attributes only. *)
Theorem registration_keeps_methods self matching st st' res v :
  keeps_handlers handler_body ->
  registration self matching st = (st', res) ->
  v ∈ handler_names ->
  receiver st' !! v = receiver st !! v.
Proof.
  intros Hkeep Hrun Hv.
  exact (addMatchingNotifications_agree _ _ _ _ _ Hkeep Hrun v Hv).
Qed.

(** X10. Registering is not idempotent: a second registration of the same
    receiver makes the same requests again, in the same order, and
    returns a mapping with the same keys. *)
Theorem registration_repeats self matching st st1 st2 iterators1 iterators2 :
  keeps_handlers handler_body ->
  registration self matching st = (st1, Return iterators1) ->
  registration self matching st1 = (st2, Return iterators2) ->
  exists new1 new2,
    trace st1 = trace st ++ new1 /\
    trace st2 = trace st1 ++ new2 /\
    subscriptions new2 = subscriptions new1 /\
    dom iterators2 = dom iterators1.
Proof.
  intros Hkeep Hrun1 Hrun2.
  assert (Hsame : exposed (receiver st1) notification_map =
                  exposed (receiver st) notification_map).
  { apply exposed_agree; [|exact notification_map_names].
    exact (addMatchingNotifications_agree _ _ _ _ _ Hkeep Hrun1). }
  destruct (addMatchingNotifications_registered _ _ _ _ _ _ _ _ Hkeep Hrun1)
    as (new1 & Htrace1 & Hreg1).
  destruct (addMatchingNotifications_registered _ _ _ _ _ _ _ _ Hkeep Hrun2)
    as (new2 & Htrace2 & Hreg2).
  exists new1, new2. split; [exact Htrace1|]. split; [exact Htrace2|].
  destruct (registered_subscriptions _ _ _ _ _ _ _ _ Hreg1) as [_ Hall1].
  destruct (registered_subscriptions _ _ _ _ _ _ _ _ Hreg2) as [_ Hall2].
  split.
  - by rewrite (Hall1 _ eq_refl), (Hall2 _ eq_refl), Hsame.
  - rewrite (registered_dom _ _ _ _ _ _ _ _ Hreg1).
    rewrite (registered_dom _ _ _ _ _ _ _ _ Hreg2). by rewrite Hsame.
Qed.

(** X11. When the receiver exposes one form only for a notification type,
    a registration that returns leaves the box of that handler on the
    receiver, under the attribute named after the notification type. *)
Theorem box_kept_for_single_form self matching st st' iterators k v n :
  keeps_handlers handler_body ->
  keeps_boxes handler_body ->
  registration self matching st = (st', Return iterators) ->
  (k, v, n) ∈ notification_map ->
  truthy (getattr (receiver st) v PyNone) = true ->
  (forall v' n',
     (k, v', n') ∈ notification_map ->
     truthy (getattr (receiver st) v' PyNone) = true -> v' = v) ->
  receiver st' !! (k +:+ "_ctype") =
  Some (py_object (getattr (receiver st) v PyNone)).
Proof.
  intros Hkeep Hboxes Hrun He Ht Hsole.
  rewrite addMatchingNotifications_unfold in Hrun.
  eapply (register_box _ _ _ (receiver st)); try exact Hrun; try assumption.
  - unfold ctype_names.
    by apply (list_elem_of_fmap_2
                (fun e : string * string * Notification => e.1.1 +:+ "_ctype")
                _ (k, v, n)).
  - exact ctype_names_fresh.
  - exact notification_map_names.
  - by intros ? _.
  - intros k' v' n' He' Ht' Hk'.
    pose proof (ctype_name_inj (k', v', n') (k, v, n) He' He Hk') as Hk.
    cbn [fst snd] in Hk. subst k'. by rewrite (Hsole v' n' He' Ht').
  - right. by exists k, v, n.
Qed.

(** X12. In a registration that returns, every call of a handler is the
    call of the receiver's attribute for an entry of the tuple, with the
    iterator or generator over the very cursor that the returned mapping
    has under that method name. *)
Theorem calls_match_returned_cursors self matching st st' iterators :
  keeps_handlers handler_body ->
  registration self matching st = (st', Return iterators) ->
  exists new,
    trace st' = trace st ++ new /\
    forall f arg,
      Call f arg ∈ new ->
      exists k v n it,
        (k, v, n) ∈ notification_map /\
        f = getattr (receiver st) v PyNone /\
        arg = argument n it /\
        iterators !! v = Some it.
Proof.
  intros Hkeep Hrun.
  destruct (addMatchingNotifications_registered _ _ _ _ _ _ _ _ Hkeep Hrun)
    as (new & Htrace & Hreg).
  exists new. split; [exact Htrace|]. intros f arg Hin.
  assert (Hnd : NoDup ((fun e : string * string * Notification => e.1.2) <$>
                         exposed (receiver st) notification_map)).
  { eapply sublist_NoDup; [exact handler_names_NoDup|].
    apply fmap_sublist, exposed_sublist. }
  destruct (registered_calls _ _ _ _ _ _ _ _ Hreg Hnd f arg Hin)
    as (k & v & n & it & He & ? & ? & ?).
  exists k, v, n, it. split; [|done].
  by apply exposed_elem in He as [He _].
Qed.

End RegistrationExtras.

(** ** The further properties on examples *)

Lemma quiet_keeps_boxes : keeps_boxes Example.quiet.
Proof. intros f arg r name _. reflexivity. Qed.

Lemma for_services_enumerates_witness :
  for_services Example.IOIteratorNext 3 {| _obj := 5 |} {[5 := [11; 12]]} =
  Some ([11; 12], Return tt).
Proof.
  apply (for_services_enumerates Example.IOIteratorNext _ 5 [11; 12] 3).
  - apply Example_enumerates; [reflexivity|]. repeat constructor; lia.
  - cbn. lia.
Defined.

Lemma IOIterator_resumes_witness :
  next_calls Example.replay 3 {| _obj := 5 |} [0; 11; 12] =
  [Raise StopIteration; Return 11; Return 12].
Proof.
  apply (IOIterator_resumes Example.replay [0; 11; 12] 5 [11; 12]).
  - repeat constructor; lia.
  - reflexivity.
Defined.

Lemma path_generator_stays_exhausted_witness :
  generator_calls Example.IOIteratorNext Example.search Example.objc_object 2
    (finish (path_generator 5)) {[5 := [2]]} =
  [Raise StopIteration; Raise StopIteration].
Proof.
  apply (path_generator_stays_exhausted Example.IOIteratorNext
           Example.search Example.objc_object
           (path_generator 5) ∅ ∅ (finish (path_generator 5)) StopIteration).
  reflexivity.
Defined.

Lemma path_generator_lookup_raises_witness :
  generator_calls Example.IOIteratorNext Example.search
    Example.objc_object 3 (path_generator 5) {[5 := [2; 1; 2]]} =
  [Return (ObjCValue 1000); Raise AttributeError; Raise StopIteration].
Proof.
  apply (path_generator_lookup_raises Example.IOIteratorNext Example.search
           Example.objc_object _ 5 [2] 1 [2] [ObjCValue 1000]
           AttributeError).
  - apply Example_enumerates; [reflexivity|]. repeat constructor; lia.
  - reflexivity.
  - reflexivity.
Defined.

Lemma for_paths_enumerates_witness :
  for_paths Example.IOIteratorNext Example.search Example.objc_object 3
    (path_generator 5) {[5 := [2; 2]]} =
  Some ([ObjCValue 1000; ObjCValue 1000], Return tt).
Proof.
  apply (for_paths_enumerates Example.IOIteratorNext Example.search
           Example.objc_object _ 5 [2; 2] [ObjCValue 1000; ObjCValue 1000] 3).
  - apply Example_enumerates; [reflexivity|]. repeat constructor; lia.
  - reflexivity.
  - cbn. lia.
Defined.

Lemma requests_in_tuple_order_witness :
  subscriptions (trace Example.both_run.1)
    `sublist_of` (entry_key <$> notification_map).
Proof.
  destruct (requests_in_tuple_order
              Example.accept Example.quiet Example.no_IOException
              Example.port Example.matching
              (Example.fresh Example.both_forms)
              Example.both_run.1 Example.both_run.2
              (surjective_pairing Example.both_run))
    as (new & Htrace & Hsub).
  rewrite Htrace. exact Hsub.
Defined.

Lemma requests_on_own_port_witness :
  Forall (well_targeted 7 9) (trace Example.path_run.1).
Proof.
  destruct (requests_on_own_port
              Example.accept Example.quiet Example.no_IOException
              Example.port Example.matching
              (Example.fresh Example.path_receiver)
              Example.path_run.1 Example.path_run.2
              (surjective_pairing Example.path_run))
    as (new & Htrace & Hnew).
  rewrite Htrace. exact Hnew.
Defined.

Lemma registration_stops_at_refusal_witness :
  exists pre k n wrap ret it,
    trace Example.refused_run.1 = pre ++ [Subscribe 7 k 9 n wrap ret it] /\
    ret <> 0 /\ Forall accepted pre /\
    receiver Example.refused_run.1 !! (k +:+ "_ctype") = Some wrap.
Proof.
  destruct (registration_stops_at_refusal
              Example.refuse_third Example.quiet Example.no_IOException
              Example.port Example.matching
              (Example.fresh Example.four_handlers)
              Example.refused_run.1 Example.refused_run.2
              (surjective_pairing Example.refused_run))
    as (new & Htrace & _ & Hraise).
  destruct (Hraise (NameError "IOException"))
    as [(He & _)|(pre & k & n & wrap & ret & it & Hnew & Hret & Hpre & Hbox)].
  { vm_compute. reflexivity. }
  { discriminate He. }
  exists pre, k, n, wrap, ret, it.
  rewrite Htrace, Hnew. by repeat split.
Defined.

Lemma registration_keeps_methods_witness :
  receiver Example.path_run.1 !! "on_path_match" =
  Some (PyFunction "on_path_match").
Proof.
  apply (registration_keeps_methods
           Example.accept Example.quiet Example.no_IOException
           Example.port Example.matching
           (Example.fresh Example.path_receiver)
           Example.path_run.1 Example.path_run.2 "on_path_match"
           quiet_keeps_handlers (surjective_pairing Example.path_run)).
  apply (bool_decide_unpack _). vm_compute. exact I.
Defined.

Lemma registration_repeats_witness :
  exists st2 iterators2 new1 new2,
    addMatchingNotifications Example.accept Example.quiet
      Example.no_IOException Example.port Example.matching
      Example.path_run.1 = (st2, Return iterators2) /\
    trace Example.path_run.1 = new1 /\
    trace st2 = new1 ++ new2 /\
    subscriptions new2 = subscriptions new1.
Proof.
  pose (iterators1 :=
          ({[ "on_path_match" := 100; "on_path_terminate" := 101 ]}
             : gmap string Z)).
  pose (iterators2 :=
          ({[ "on_path_match" := 102; "on_path_terminate" := 103 ]}
             : gmap string Z)).
  assert (Hrun1 : Example.path_run = (Example.path_run.1, Return iterators1)).
  { apply injective_projections; [reflexivity|vm_compute; reflexivity]. }
  pose (second := addMatchingNotifications Example.accept Example.quiet
                    Example.no_IOException Example.port Example.matching
                    Example.path_run.1).
  assert (Hrun2 : second = (second.1, Return iterators2)).
  { apply injective_projections; [reflexivity|vm_compute; reflexivity]. }
  destruct (registration_repeats
              Example.accept Example.quiet Example.no_IOException
              Example.port Example.matching
              (Example.fresh Example.path_receiver)
              Example.path_run.1 second.1 iterators1 iterators2
              quiet_keeps_handlers Hrun1 Hrun2)
    as (new1 & new2 & Htrace1 & Htrace2 & Hsame & _).
  exists second.1, iterators2, new1, new2.
  split; [exact Hrun2|]. split; [exact Htrace1|].
  split; [by rewrite Htrace2, Htrace1|exact Hsame].
Defined.

Lemma box_kept_for_single_form_witness :
  receiver Example.path_run.1 !! "IOServiceMatched_ctype" =
  Some (py_object (PyFunction "on_path_match")).
Proof.
  assert (Hrun : Example.path_run =
                 (Example.path_run.1,
                  Return {[ "on_path_match" := 100;
                            "on_path_terminate" := 101 ]})).
  { apply injective_projections; [reflexivity|vm_compute; reflexivity]. }
  apply (box_kept_for_single_form
           Example.accept Example.quiet Example.no_IOException
           Example.port Example.matching
           (Example.fresh Example.path_receiver) Example.path_run.1 _
           kIOMatchedNotification "on_path_match" _path_notification
           quiet_keeps_handlers quiet_keeps_boxes Hrun path_match_entry
           eq_refl).
  intros v' n' Hin Ht.
  apply list_elem_of_In in Hin. cbn in Hin.
  repeat (destruct Hin as [Hin|Hin];
          [inversion Hin; subst; clear Hin;
           first [reflexivity|vm_compute in Ht; discriminate Ht]|]).
  contradiction.
Defined.

Lemma calls_match_returned_cursors_witness :
  exists k v n it,
    (k, v, n) ∈ notification_map /\
    PyFunction "on_path_match" = getattr Example.path_receiver v PyNone /\
    ArgGenerator (path_generator 100) = argument n it.
Proof.
  assert (Hrun : Example.path_run =
                 (Example.path_run.1,
                  Return {[ "on_path_match" := 100;
                            "on_path_terminate" := 101 ]})).
  { apply injective_projections; [reflexivity|vm_compute; reflexivity]. }
  destruct (calls_match_returned_cursors
              Example.accept Example.quiet Example.no_IOException
              Example.port Example.matching
              (Example.fresh Example.path_receiver) Example.path_run.1 _
              quiet_keeps_handlers Hrun)
    as (new & Htrace & Hcalls).
  destruct (Hcalls (PyFunction "on_path_match")
              (ArgGenerator (path_generator 100)))
    as (k & v & n & it & He & Hf & Harg & _).
  { cbn [Example.fresh trace app] in Htrace. rewrite <- Htrace.
    apply (bool_decide_unpack _). vm_compute. exact I. }
  by exists k, v, n, it.
Defined.
